(** * Crypto-Tracker: the potential-list pipeline of [CryptoTracker.tsx]

    A shallow embedding of the data pipeline of the [PotentialList] component
    (src/components/CryptoTracker.tsx): [calculatePotentialScore],
    [filterData], [fetchData], the history track ([handleCryptoClick],
    [handleTimeRangeChange], [fetchHistoricalData]) and the [chartData]
    transform, with the properties the specification states about them.

    Numbers.  A JavaScript number is modelled by [number]: the three special
    values the guards of the source depend on ([NaN], [+Infinity],
    [-Infinity]) and the finite values, taken as real numbers.  Rounding of
    finite results to binary64, overflow of a finite operation to an infinity
    and the sign of zero are not represented; every concrete input used below
    only involves values that binary64 represents exactly, except where the
    natural logarithm occurs.

    Exceptions.  [try]/[catch] is modelled by [completion] and [try_catch].

    State.  React state is a record; a handler is a function on it, and an
    asynchronous operation is split at its [await] into the part that runs at
    the trigger and the part that runs when the promise settles. *)

From Stdlib Require Import Reals Lra Lia ZArith List Bool String Ascii.
From Stdlib Require Import Sorted Permutation.
Import ListNotations.

Set Implicit Arguments.

(** ** JavaScript numbers *)

Module JS.

Open Scope R_scope.

Inductive number : Type :=
| NaN
| PInf
| NInf
| Fin (r : R).

Definition Rleb (x y : R) : bool := if Rle_dec x y then true else false.
Definition Rltb (x y : R) : bool := if Rlt_dec x y then true else false.
Definition Reqb (x y : R) : bool := if Req_dec_T x y then true else false.

Definition isNaN (x : number) : bool :=
  match x with NaN => true | _ => false end.

(** [x <= y], [x < y], [x >= y], [x > y]: false as soon as an operand is NaN. *)
Definition le (x y : number) : bool :=
  match x, y with
  | NaN, _ | _, NaN => false
  | NInf, _ => true
  | _, PInf => true
  | Fin a, Fin b => Rleb a b
  | _, _ => false
  end.

Definition lt (x y : number) : bool :=
  match x, y with
  | NaN, _ | _, NaN => false
  | Fin a, Fin b => Rltb a b
  | PInf, _ => false
  | _, NInf => false
  | _, _ => true
  end.

Definition ge (x y : number) : bool := le y x.
Definition gt (x y : number) : bool := lt y x.

(** Strict equality [===] on numbers. *)
Definition eqb (x y : number) : bool :=
  match x, y with
  | PInf, PInf | NInf, NInf => true
  | Fin a, Fin b => Reqb a b
  | _, _ => false
  end.

Definition neg (x : number) : number :=
  match x with
  | NaN => NaN
  | PInf => NInf
  | NInf => PInf
  | Fin a => Fin (- a)
  end.

Definition add (x y : number) : number :=
  match x, y with
  | NaN, _ | _, NaN => NaN
  | PInf, NInf | NInf, PInf => NaN
  | PInf, _ | _, PInf => PInf
  | NInf, _ | _, NInf => NInf
  | Fin a, Fin b => Fin (a + b)
  end.

Definition sub (x y : number) : number := add x (neg y).

(** The infinity whose sign is that of [a], NaN when [a] is zero. *)
Definition signed_inf (a : R) (pos : number) : number :=
  if Rltb 0 a then pos else if Rltb a 0 then neg pos else NaN.

Definition mul (x y : number) : number :=
  match x, y with
  | NaN, _ | _, NaN => NaN
  | Fin a, Fin b => Fin (a * b)
  | Fin a, i | i, Fin a => signed_inf a i
  | PInf, PInf | NInf, NInf => PInf
  | PInf, NInf | NInf, PInf => NInf
  end.

Definition div (x y : number) : number :=
  match x, y with
  | NaN, _ | _, NaN => NaN
  | Fin a, Fin b => if Reqb b 0 then signed_inf a PInf else Fin (a / b)
  | Fin _, _ => Fin 0
  | i, Fin b => if Rltb b 0 then neg i else i
  | _, _ => NaN
  end.

(** [Math.min] and [Math.max] of two arguments. *)
Definition Math_min (x y : number) : number :=
  match x, y with
  | NaN, _ | _, NaN => NaN
  | _, _ => if le x y then x else y
  end.

Definition Math_max (x y : number) : number :=
  match x, y with
  | NaN, _ | _, NaN => NaN
  | _, _ => if le x y then y else x
  end.

(** [Math.log]: the natural logarithm; NaN below zero, [-Infinity] at zero. *)
Definition Math_log (x : number) : number :=
  match x with
  | NaN | NInf => NaN
  | PInf => PInf
  | Fin a => if Rltb a 0 then NaN else if Reqb a 0 then NInf else Fin (ln a)
  end.

(** [Math.round]: the nearest integer, a tie going towards [+Infinity]. *)
Definition Math_round (x : number) : number :=
  match x with
  | Fin a => Fin (IZR (Zfloor (a + / 2)))
  | _ => x
  end.

(** [x || 0] on a number: NaN and zero are falsy. *)
Definition or_zero (x : number) : number :=
  match x with
  | NaN => Fin 0
  | _ => x
  end.

Definition of_Z (z : Z) : number := Fin (IZR z).

End JS.

Import JS.

(** ** [parseFloat]

    The prefix of the argument that is a [StrDecimalLiteral] (ECMAScript
    19.2.4), after leading white space; NaN when there is none.  The parse is
    executable and yields a [literal]; [number_of_literal] gives its value.
    White space is the ASCII part of [StrWhiteSpaceChar]. *)

Module Parse.

Open Scope string_scope.

Inductive literal : Type :=
| LNaN
| LInfinity (negative : bool)
| LDecimal (negative : bool) (mantissa : Z) (exp10 : Z).

Definition digit_of (c : ascii) : option Z :=
  let n := nat_of_ascii c in
  if andb (Nat.leb 48 n) (Nat.leb n 57) then Some (Z.of_nat (n - 48)) else None.

Definition is_white (c : ascii) : bool :=
  let n := nat_of_ascii c in
  orb (Nat.eqb n 32) (andb (Nat.leb 9 n) (Nat.leb n 13)).

Fixpoint skip_white (s : string) : string :=
  match s with
  | String c s' => if is_white c then skip_white s' else s
  | EmptyString => s
  end.

(** The longest run of decimal digits at the head of [s]: the number they
    denote after the digits [acc] already read, how many there are, and what
    follows them. *)
Fixpoint read_digits (s : string) (acc : Z) (count : nat) : Z * nat * string :=
  match s with
  | String c s' =>
      match digit_of c with
      | Some d => read_digits s' (10 * acc + d)%Z (S count)
      | None => (acc, count, s)
      end
  | EmptyString => (acc, count, s)
  end.

(** An [ExponentPart] at the head of [s], if there is a complete one. *)
Definition read_exponent (s : string) : Z :=
  match s with
  | String c s' =>
      if orb (Ascii.eqb c "e") (Ascii.eqb c "E") then
        let '(negative, s'') :=
          match s' with
          | String "-" t => (true, t)
          | String "+" t => (false, t)
          | _ => (false, s')
          end in
        let '(e, n, _) := read_digits s'' 0%Z 0 in
        match n with
        | O => 0%Z
        | S _ => if negative then (- e)%Z else e
        end
      else 0%Z
  | EmptyString => 0%Z
  end.

Definition read_unsigned (negative : bool) (s : string) : literal :=
  if String.prefix "Infinity" s then LInfinity negative else
  let '(ip, ni, rest) := read_digits s 0%Z 0 in
  match rest with
  | String "." rest' =>
      let '(m, nf, rest'') := read_digits rest' ip 0 in
      match ni, nf with
      | O, O => LNaN
      | _, _ => LDecimal negative m (read_exponent rest'' - Z.of_nat nf)
      end
  | _ =>
      match ni with
      | O => LNaN
      | S _ => LDecimal negative ip (read_exponent rest)
      end
  end.

Definition parse_literal (s : string) : literal :=
  match skip_white s with
  | String "-" s' => read_unsigned true s'
  | String "+" s' => read_unsigned false s'
  | s' => read_unsigned false s'
  end.

Definition number_of_literal (l : literal) : number :=
  match l with
  | LNaN => NaN
  | LInfinity negative => if negative then NInf else PInf
  | LDecimal negative m e =>
      let v := if (0 <=? e)%Z then IZR (m * 10 ^ e) else (IZR m / IZR (10 ^ (- e)))%R in
      Fin (if negative then - v else v)%R
  end.

End Parse.

Definition parseFloat (s : string) : number :=
  Parse.number_of_literal (Parse.parse_literal s).

(** ** Exceptions *)

Inductive exn : Type :=
| TypeError.

Inductive completion (A : Type) : Type :=
| Normal (a : A)
| Throw (e : exn).

Arguments Normal {A} a.
Arguments Throw {A} e.

(** [try { body } catch (err) { handler }] *)
Definition try_catch {A : Type} (body : completion A) (handler : exn -> A) : A :=
  match body with
  | Normal a => a
  | Throw e => handler e
  end.

(** ** Data model *)

(** [interface CryptoData] of the potential list (lines 269-281).  The
    numeric fields are the strings of the response; a field the endpoint
    leaves [null] reaches [parseFloat] as the text "null", which is one of
    the strings that parse to NaN. *)
Record CryptoData : Type := {
  id : string;
  name : string;
  symbol : string;
  priceUsd : string;
  changePercent24Hr : string;
  marketCapUsd : string;
  volumeUsd24Hr : string;
  supply : string;
  maxSupply : string;
  volumeUsd24HrChange : option string;
  potentialScore : option number
}.

(** [interface FilterParams] (lines 283-288).  [maxResults] caps the length
    of the ranked list and is a count, so [slice(0, maxResults)] is
    [firstn]. *)
Record FilterParams : Type := {
  minVolume : number;
  minMarketCap : number;
  maxMarketCap : number;
  maxResults : nat
}.

(** The value [useState<FilterParams>] is initialised with; the component
    has no setter for it. *)
Definition filterParams : FilterParams := {|
  minVolume := of_Z 1000000;
  minMarketCap := of_Z 1000000;
  maxMarketCap := of_Z 5000000000;
  maxResults := 100
|}.

(** ** [calculatePotentialScore] (lines 313-352) *)

Definition marketCapScore (marketCap : number) : number :=
  if andb (ge marketCap (of_Z 1000000)) (le marketCap (of_Z 5000000000)) then
    mul (of_Z 30)
        (sub (of_Z 1)
             (div (sub (Math_log marketCap) (Math_log (of_Z 1000000)))
                  (sub (Math_log (of_Z 5000000000)) (Math_log (of_Z 1000000)))))
  else of_Z 0.

Definition volumeScore (volume marketCap : number) : number :=
  if gt volume (of_Z 0) then
    let volumeRatio := div volume marketCap in
    Math_min (of_Z 25) (mul volumeRatio (of_Z 100))
  else of_Z 0.

Definition supplyScore (supply maxSupply : number) : number :=
  if andb (andb (negb (isNaN supply)) (negb (isNaN maxSupply))) (gt maxSupply (of_Z 0)) then
    let supplyRatio := div supply maxSupply in
    mul (of_Z 20) (sub (of_Z 1) supplyRatio)
  else of_Z 0.

Definition trendScore (changePercent : number) : number :=
  if negb (isNaN changePercent) then
    Math_min (of_Z 25) (Math_max (of_Z 0) changePercent)
  else of_Z 0.

(** The [try] block.  Reading a field of a record and [parseFloat] do not
    throw, so the block always completes normally. *)
Definition calculatePotentialScore_try (coin : CryptoData) : completion number :=
  let marketCap := parseFloat (marketCapUsd coin) in
  let volume := parseFloat (volumeUsd24Hr coin) in
  let changePercent := parseFloat (changePercent24Hr coin) in
  let supply := parseFloat (supply coin) in
  let maxSupply := parseFloat (maxSupply coin) in
  Normal
    (Math_round
       (add (add (add (marketCapScore marketCap) (volumeScore volume marketCap))
                 (supplyScore supply maxSupply))
            (trendScore changePercent))).

Definition calculatePotentialScore (coin : CryptoData) : number :=
  try_catch (calculatePotentialScore_try coin) (fun _ => of_Z 0).

(** ** [Array.prototype.sort] with a comparator

    The sort is stable (ECMAScript 2019); [x] is placed after [y] exactly
    when [compareFn x y] is positive, a NaN result counting as zero.  The
    model is the insertion sort with that test, which is what every
    conforming sort computes for a comparator that orders by a key. *)

Section ArraySort.
Variable A : Type.
Variable compareFn : A -> A -> number.

Fixpoint sort_insert (x : A) (l : list A) : list A :=
  match l with
  | [] => [x]
  | y :: l' => if gt (compareFn x y) (of_Z 0) then y :: sort_insert x l' else x :: l
  end.

Definition Array_sort (l : list A) : list A := fold_right sort_insert [] l.
End ArraySort.

(** ** Component state *)

Inductive TimeRange : Type := R24H | R7D | R30D | RALL.

Definition TimeRange_eqb (a b : TimeRange) : bool :=
  match a, b with
  | R24H, R24H | R7D, R7D | R30D, R30D | RALL, RALL => true
  | _, _ => false
  end.

(** [TIME_RANGES]: the sampling interval and the number of days. *)
Definition TIME_RANGES (range : TimeRange) : string * Z :=
  match range with
  | R24H => ("m5"%string, 1%Z)
  | R7D => ("h1"%string, 7%Z)
  | R30D => ("h2"%string, 30%Z)
  | RALL => ("d1"%string, 2000%Z)
  end.

Module History.
(** One point of the history endpoint ([interface HistoricalData]). *)
Record HistoricalData : Type := {
  priceUsd : string;
  time : Z;
  date : string
}.
End History.
Import History (HistoricalData).

(** The [useState] cells of [PotentialList] that the pipeline reads or writes. *)
Record State : Type := {
  error : option string;
  selectedTimeRange : TimeRange;
  selectedCrypto : option CryptoData;
  historicalData : list HistoricalData;
  loadingHistory : bool;
  data : list CryptoData;
  loading : bool
}.

Definition initialState : State := {|
  error := None;
  selectedTimeRange := R7D;
  selectedCrypto := None;
  historicalData := [];
  loadingHistory := false;
  data := [];
  loading := true
|}.

Definition setError (v : option string) (s : State) : State :=
  {| error := v; selectedTimeRange := selectedTimeRange s;
     selectedCrypto := selectedCrypto s; historicalData := historicalData s;
     loadingHistory := loadingHistory s; data := data s; loading := loading s |}.

Definition setSelectedTimeRange (v : TimeRange) (s : State) : State :=
  {| error := error s; selectedTimeRange := v;
     selectedCrypto := selectedCrypto s; historicalData := historicalData s;
     loadingHistory := loadingHistory s; data := data s; loading := loading s |}.

Definition setSelectedCrypto (v : option CryptoData) (s : State) : State :=
  {| error := error s; selectedTimeRange := selectedTimeRange s;
     selectedCrypto := v; historicalData := historicalData s;
     loadingHistory := loadingHistory s; data := data s; loading := loading s |}.

Definition setHistoricalData (v : list HistoricalData) (s : State) : State :=
  {| error := error s; selectedTimeRange := selectedTimeRange s;
     selectedCrypto := selectedCrypto s; historicalData := v;
     loadingHistory := loadingHistory s; data := data s; loading := loading s |}.

Definition setLoadingHistory (v : bool) (s : State) : State :=
  {| error := error s; selectedTimeRange := selectedTimeRange s;
     selectedCrypto := selectedCrypto s; historicalData := historicalData s;
     loadingHistory := v; data := data s; loading := loading s |}.

Definition setData (v : list CryptoData) (s : State) : State :=
  {| error := error s; selectedTimeRange := selectedTimeRange s;
     selectedCrypto := selectedCrypto s; historicalData := historicalData s;
     loadingHistory := loadingHistory s; data := v; loading := loading s |}.

Definition setLoading (v : bool) (s : State) : State :=
  {| error := error s; selectedTimeRange := selectedTimeRange s;
     selectedCrypto := selectedCrypto s; historicalData := historicalData s;
     loadingHistory := loadingHistory s; data := data s; loading := v |}.

(** The two messages the component stores in [error]. *)
Definition MSG_NO_MATCH : string := "沒有找到符合條件的數據".
Definition MSG_FETCH_FAILED : string := "獲取數據失敗，請稍後重試".

(** ** [filterData] (lines 354-411) *)

(** What [response.data.data] can be at run time: an array of records, or a
    value on which [.filter] is not callable. *)
Inductive json_data : Type :=
| JArray (items : list CryptoData)
| JOther.

(** The [try] block of the filter callback: the conjunction [isValid].  Its
    first conjunct, [coin], is an object and hence truthy; [console.debug]
    and [console.error] only log. *)
Definition isValid_try (params : FilterParams) (coin : CryptoData) : completion bool :=
  let volumeUsd := parseFloat (volumeUsd24Hr coin) in
  let marketCap := parseFloat (marketCapUsd coin) in
  let changePercent := parseFloat (changePercent24Hr coin) in
  Normal
    (negb (isNaN volumeUsd) &&
     ge volumeUsd (minVolume params) &&
     negb (isNaN marketCap) &&
     ge marketCap (minMarketCap params) &&
     le marketCap (maxMarketCap params) &&
     negb (isNaN changePercent))%bool.

Definition isValid (params : FilterParams) (coin : CryptoData) : bool :=
  try_catch (isValid_try params coin) (fun _ => false).

(** [{...coin, potentialScore: calculatePotentialScore(coin)}] *)
Definition withScore (coin : CryptoData) : CryptoData :=
  {| id := id coin; name := name coin; symbol := symbol coin;
     priceUsd := priceUsd coin; changePercent24Hr := changePercent24Hr coin;
     marketCapUsd := marketCapUsd coin; volumeUsd24Hr := volumeUsd24Hr coin;
     supply := supply coin; maxSupply := maxSupply coin;
     volumeUsd24HrChange := volumeUsd24HrChange coin;
     potentialScore := Some (calculatePotentialScore coin) |}.

(** [coin.potentialScore || 0]: an absent score, NaN and zero give 0. *)
Definition scoreOrZero (coin : CryptoData) : number :=
  match potentialScore coin with
  | Some v => or_zero v
  | None => of_Z 0
  end.

Definition compareScore_try (a b : CryptoData) : completion number :=
  Normal (sub (scoreOrZero b) (scoreOrZero a)).

Definition compareScore (a b : CryptoData) : number :=
  try_catch (compareScore_try a b) (fun _ => of_Z 0).

(** The chain [data.filter(..).map(..).sort(..).slice(0, maxResults)]. *)
Definition filtered (params : FilterParams) (items : list CryptoData) : list CryptoData :=
  filter (isValid params) items.

Definition ranked (params : FilterParams) (items : list CryptoData) : list CryptoData :=
  firstn (maxResults params)
         (Array_sort compareScore (map withScore (filtered params items))).

Definition pipeline (params : FilterParams) (d : json_data) : completion (list CryptoData) :=
  match d with
  | JArray items => Normal (ranked params items)
  | JOther => Throw TypeError
  end.

(** The outer [try] block: the chain, then the [setError] of lines 400-404. *)
Definition filterData_try (params : FilterParams) (d : json_data) (s : State)
  : completion (list CryptoData * State) :=
  match pipeline params d with
  | Normal filteredData =>
      Normal (filteredData,
              if Nat.eqb (List.length filteredData) 0
              then setError (Some MSG_NO_MATCH) s
              else setError None s)
  | Throw e => Throw e
  end.

Definition filterData (params : FilterParams) (d : json_data) (s : State)
  : list CryptoData * State :=
  try_catch (filterData_try params d s) (fun _ => ([], s)).

(** ** [fetchData] (lines 413-426)

    [fetchData_begin] is the part before the [await]; [fetchData_settle] is
    the rest, run when the request settles. *)

Inductive response : Type :=
| Fulfilled (payload : json_data)
| Rejected.

Definition fetchData_begin (s : State) : State := setLoading true s.

Definition fetchData_settle (params : FilterParams) (r : response) (s : State) : State :=
  setLoading false
    match r with
    | Fulfilled payload =>
        let '(filteredData, s1) := filterData params payload s in
        setError None (setData filteredData s1)
    | Rejected => setError (Some MSG_FETCH_FAILED) s
    end.

(** ** [fetchHistoricalData] (lines 446-463) and the handlers that call it *)

Inductive historyResponse : Type :=
| HistoryFulfilled (payload : list HistoricalData)
| HistoryRejected.

Definition fetchHistoricalData_begin (s : State) : State := setLoadingHistory true s.

Definition fetchHistoricalData_settle (r : historyResponse) (s : State) : State :=
  setLoadingHistory false
    match r with
    | HistoryFulfilled payload => setHistoricalData payload s
    | HistoryRejected => s
    end.

(** The query of the history request issued at clock readings [now1], [now2]
    (the two calls of [Date.now()]). *)
Definition historyQuery (range : TimeRange) (now1 now2 : Z) : string * Z * Z :=
  let '(interval, days) := TIME_RANGES range in
  (interval, (now1 - days * 24 * 60 * 60 * 1000)%Z, now2).

(** ** The component and its pending requests

    A [World] is the state together with the requests that have been issued
    and have not settled: snapshot fetches by ticket, history fetches by
    ticket with the asset id and the range they were issued for. *)

Record World : Type := {
  state : State;
  snapshotFetches : list nat;
  historyFetches : list (nat * (string * TimeRange));
  issued : nat
}.

Inductive Event : Type :=
| TimerTick
| RefreshClick
| SnapshotSettled (ticket : nat) (r : response)
| CryptoClick (index : nat)
| TimeRangeChange (newRange : option TimeRange)
| DialogClose
| HistorySettled (ticket : nat) (r : historyResponse).

Definition startSnapshotFetch (w : World) : World :=
  {| state := fetchData_begin (state w);
     snapshotFetches := snapshotFetches w ++ [issued w];
     historyFetches := historyFetches w;
     issued := S (issued w) |}.

Definition startHistoryFetch (cryptoId : string) (range : TimeRange) (w : World) : World :=
  {| state := fetchHistoricalData_begin (state w);
     snapshotFetches := snapshotFetches w;
     historyFetches := historyFetches w ++ [(issued w, (cryptoId, range))];
     issued := S (issued w) |}.

Definition withState (f : State -> State) (w : World) : World :=
  {| state := f (state w);
     snapshotFetches := snapshotFetches w;
     historyFetches := historyFetches w;
     issued := issued w |}.

Definition isPending (ticket : nat) (l : list nat) : bool := existsb (Nat.eqb ticket) l.

Definition lookupHistory (ticket : nat) (l : list (nat * (string * TimeRange)))
  : option (string * TimeRange) :=
  option_map snd (find (fun p => Nat.eqb ticket (fst p)) l).

(** The world after mounting: the effect of lines 428-432 has called
    [fetchData] once and has armed the 60 second interval. *)
Definition mounted : World :=
  startSnapshotFetch
    {| state := initialState; snapshotFetches := []; historyFetches := []; issued := 0 |}.

Definition step (w : World) (e : Event) : World :=
  match e with
  | TimerTick =>
      (* setInterval(fetchData, 60000) *)
      startSnapshotFetch w
  | RefreshClick =>
      (* <IconButton onClick={fetchData} disabled={loading}> *)
      if loading (state w) then w else startSnapshotFetch w
  | SnapshotSettled ticket r =>
      if isPending ticket (snapshotFetches w) then
        {| state := fetchData_settle filterParams r (state w);
           snapshotFetches := filter (fun t => negb (Nat.eqb ticket t)) (snapshotFetches w);
           historyFetches := historyFetches w;
           issued := issued w |}
      else w
  | CryptoClick index =>
      (* the cards are rendered from [data] when [loading] is false *)
      if loading (state w) then w else
      match nth_error (data (state w)) index with
      | Some crypto =>
          (* handleCryptoClick *)
          startHistoryFetch (id crypto) (selectedTimeRange (state w))
            (withState (setSelectedCrypto (Some crypto)) w)
      | None => w
      end
  | TimeRangeChange newRange =>
      (* handleTimeRangeChange *)
      match newRange with
      | Some range =>
          let w1 := withState (setSelectedTimeRange range) w in
          match selectedCrypto (state w) with
          | Some crypto => startHistoryFetch (id crypto) range w1
          | None => w1
          end
      | None => w
      end
  | DialogClose => withState (setSelectedCrypto None) w
  | HistorySettled ticket r =>
      match lookupHistory ticket (historyFetches w) with
      | Some _ =>
          {| state := fetchHistoricalData_settle r (state w);
             snapshotFetches := snapshotFetches w;
             historyFetches := filter (fun p => negb (Nat.eqb ticket (fst p))) (historyFetches w);
             issued := issued w |}
      | None => w
      end
  end.

Definition run (w : World) (trace : list Event) : World := fold_left step trace w.

(** ** [chartData] (lines 470-490) *)

Module Chart.

Record DateTimeFormatOptions : Type := {
  month : option string;
  day : option string;
  hour : option string
}.

Record Dataset : Type := {
  label : string;
  data : list number;
  borderColor : string;
  tension : number
}.

Record ChartData : Type := {
  labels : list string;
  datasets : list Dataset
}.

Definition labelOptions (selectedTimeRange : TimeRange) : DateTimeFormatOptions :=
  {| month := Some "short"%string;
     day := Some "numeric"%string;
     hour := if TimeRange_eqb selectedTimeRange R24H then Some "numeric"%string else None |}.

Section Transform.
(** [new Date(time).toLocaleDateString('zh-CN', options)], a function of
    the host. *)
Variable toLocaleDateString : Z -> DateTimeFormatOptions -> string.

(** [null] is [None]. *)
Definition chartData (historicalData : list HistoricalData) (selectedTimeRange : TimeRange)
  : option ChartData :=
  if Nat.eqb (List.length historicalData) 0 then None
  else
    Some
      {| labels :=
           map (fun item => toLocaleDateString (History.time item) (labelOptions selectedTimeRange))
               historicalData;
         datasets :=
           [ {| label := "價格 (USD)"%string;
                data := map (fun item => parseFloat (History.priceUsd item)) historicalData;
                borderColor := "rgb(75, 192, 192)"%string;
                tension := Fin (/ 10) |} ] |}.
End Transform.

End Chart.

(** ** Vocabulary of the properties *)

(** [Number.isFinite]. *)
Definition isFinite (x : number) : bool :=
  match x with Fin _ => true | _ => false end.

(** The score a ranked record carries; NaN when the field is absent. *)
Definition scoreOf (coin : CryptoData) : number :=
  match potentialScore coin with
  | Some v => v
  | None => NaN
  end.

(** [a] may stand before [b] in a list that descends by [key]. *)
Definition descendingBy {A : Type} (key : A -> number) (a b : A) : Prop :=
  le (key b) (key a) = true.

(** No inversion: [b] is not above [a]; it holds when either is NaN. *)
Definition notBelow {A : Type} (key : A -> number) (a b : A) : Prop :=
  lt (key a) (key b) = false.

(** The records whose sort key is [k]: the ties of the comparator. *)
Definition tied (k : number) (coin : CryptoData) : bool := eqb (scoreOrZero coin) k.

(** ** Sample inputs *)

Definition snapshot (marketCap volume change sup maxSup : string) : CryptoData :=
  {| id := "asset"; name := "Asset"; symbol := "AST"; priceUsd := "1";
     changePercent24Hr := change; marketCapUsd := marketCap; volumeUsd24Hr := volume;
     supply := sup; maxSupply := maxSup;
     volumeUsd24HrChange := None; potentialScore := None |}.

(** Circulating supply seven times the maximum supply; the record passes the
    filter of the component. *)
Definition overSupplied : CryptoData :=
  snapshot "5000000000" "5000000000" "0" "7000000" "1000000".

(** A negative circulating supply; the record passes the filter of the
    component. *)
Definition negativeSupply : CryptoData :=
  snapshot "1000000" "1000000" "25" "-1000000" "1000000".

(** Scenario 1 of the specification. *)
Definition scenario1 : CryptoData :=
  snapshot "2000000000" "1000000000" "10" "500000" "1000000".

(** A supply that is not a number. *)
Definition unparsedSupply : CryptoData :=
  snapshot "5000000000" "5000000000" "10" "abc" "1000000".

(** A 24 hour volume that is not a number. *)
Definition unparsedVolume : CryptoData :=
  snapshot "5000000000" "unknown" "10" "500000" "1000000".

(** A 24 hour change that parses to [Infinity]. *)
Definition infiniteChange : CryptoData :=
  snapshot "2000000" "2000000" "Infinity" "1" "2".

(** A host formatter for closed examples: the time, as a count of days, and
    the hour when the options ask for it. *)
Definition plainLabel (time : Z) (options : Chart.DateTimeFormatOptions) : string :=
  match Chart.hour options with
  | Some _ => "day+hour"
  | None => "day"
  end.

Definition samplePoints : list HistoricalData :=
  [ {| History.priceUsd := "101"; History.time := 1700000000000;
       History.date := "2023-11-14T22:13:20.000Z" |};
    {| History.priceUsd := "102"; History.time := 1700003600000;
       History.date := "2023-11-14T23:13:20.000Z" |} ].

Definition withId (i : string) (coin : CryptoData) : CryptoData :=
  {| id := i; name := name coin; symbol := symbol coin;
     priceUsd := priceUsd coin; changePercent24Hr := changePercent24Hr coin;
     marketCapUsd := marketCapUsd coin; volumeUsd24Hr := volumeUsd24Hr coin;
     supply := supply coin; maxSupply := maxSupply coin;
     volumeUsd24HrChange := volumeUsd24HrChange coin;
     potentialScore := potentialScore coin |}.

(** Two assets of a snapshot response, of scores 35 and -95. *)
Definition assetA : CryptoData := withId "bitcoin" unparsedSupply.
Definition assetB : CryptoData := withId "ethereum" overSupplied.

(** The world once the first snapshot fetch has settled with [assetA] and
    [assetB]: both are listed and nothing is pending. *)
Definition listed : World :=
  {| state :=
       {| error := None; selectedTimeRange := R7D; selectedCrypto := None;
          historicalData := []; loadingHistory := false;
          data := [withScore assetA; withScore assetB]; loading := false |};
     snapshotFetches := []; historyFetches := []; issued := 1 |}.

(** The histories the endpoint returns for [assetA] over 7 days and for
    [assetB] over 24 hours. *)
Definition pointsA7D : list HistoricalData :=
  [ {| History.priceUsd := "40000"; History.time := 1700000000000;
       History.date := "2023-11-14T22:13:20.000Z" |} ].

Definition pointsB24H : list HistoricalData :=
  [ {| History.priceUsd := "2000"; History.time := 1700600000000;
       History.date := "2023-11-21T20:53:20.000Z" |} ].

(** Select [assetA] (7D), switch to 24H, close the dialog, select [assetB];
    then the fetch for ([assetB], 24H) settles, and after it the fetch for
    ([assetA], 7D). *)
Definition selections : list Event :=
  [ CryptoClick 0; TimeRangeChange (Some R24H); DialogClose; CryptoClick 1 ].

Definition raceTrace : list Event :=
  selections ++
  [ HistorySettled 3 (HistoryFulfilled pointsB24H);
    HistorySettled 1 (HistoryFulfilled pointsA7D) ].

(** Scenario 2 of the specification: a 24 hour volume of 500. *)
Definition lowVolume : CryptoData :=
  snapshot "2000000" "500" "1" "1" "2".

(** One of the circulating supply and the maximum supply does not parse, or
    both are finite numbers with 0 <= supply <= maxSupply <= 1e308 (a bound
    under which the decimal is a finite number of binary64 as well). *)
Definition supplyWithinCap (coin : CryptoData) : Prop :=
  isNaN (parseFloat (supply coin)) = true \/
  isNaN (parseFloat (maxSupply coin)) = true \/
  exists s m : R,
    parseFloat (supply coin) = Fin s /\ parseFloat (maxSupply coin) = Fin m /\
    (0 <= s <= m)%R /\ (m <= 10 ^ 308)%R.

(** ** [formatters.formatMarketCap] (lines 499-507) *)

Module Formatters.
Section Format.
(** [num.toFixed(digits)], a function of the host. *)
Variable toFixed : number -> nat -> string.

Definition formatMarketCap (num : number) : string :=
  if ge num (of_Z 1000000000) then
    ("$" ++ toFixed (div num (of_Z 1000000000)) 2 ++ "B")%string
  else if ge num (of_Z 1000000) then
    ("$" ++ toFixed (div num (of_Z 1000000)) 2 ++ "M")%string
  else ("$" ++ toFixed num 2)%string.
End Format.
End Formatters.

(** ** The component [CryptoTracker] (lines 78-210)

    The first component of the file keeps the chart in a state cell of its
    own, which [fetchHistoricalData] fills from the response and from the
    range it was called with.  Its only call of [setSelectedCrypto] is the
    one of the dialog's [onClose], with [null]. *)

Module Tracker.

(** [interface CryptoData] of this component (lines 51-63). *)
Record CryptoData : Type := {
  id : string;
  rank : string;
  symbol : string;
  name : string;
  supply : string;
  maxSupply : option string;
  marketCapUsd : string;
  volumeUsd24Hr : string;
  priceUsd : string;
  changePercent24Hr : string;
  vwap24Hr : string
}.

Record State : Type := {
  selectedTimeRange : TimeRange;
  selectedCrypto : option CryptoData;
  loadingHistory : bool;
  historicalData : list HistoricalData;
  chartData : option Chart.ChartData
}.

Definition initialState : State := {|
  selectedTimeRange := R7D;
  selectedCrypto := None;
  loadingHistory := false;
  historicalData := [];
  chartData := None
|}.

Definition setSelectedTimeRange (v : TimeRange) (s : State) : State :=
  {| selectedTimeRange := v; selectedCrypto := selectedCrypto s;
     loadingHistory := loadingHistory s; historicalData := historicalData s;
     chartData := chartData s |}.

Definition setSelectedCrypto (v : option CryptoData) (s : State) : State :=
  {| selectedTimeRange := selectedTimeRange s; selectedCrypto := v;
     loadingHistory := loadingHistory s; historicalData := historicalData s;
     chartData := chartData s |}.

Definition setLoadingHistory (v : bool) (s : State) : State :=
  {| selectedTimeRange := selectedTimeRange s; selectedCrypto := selectedCrypto s;
     loadingHistory := v; historicalData := historicalData s;
     chartData := chartData s |}.

Definition setHistoricalData (v : list HistoricalData) (s : State) : State :=
  {| selectedTimeRange := selectedTimeRange s; selectedCrypto := selectedCrypto s;
     loadingHistory := loadingHistory s; historicalData := v;
     chartData := chartData s |}.

Definition setChartData (v : option Chart.ChartData) (s : State) : State :=
  {| selectedTimeRange := selectedTimeRange s; selectedCrypto := selectedCrypto s;
     loadingHistory := loadingHistory s; historicalData := historicalData s;
     chartData := v |}.

Section Fetch.
Variable toLocaleDateString : Z -> Chart.DateTimeFormatOptions -> string.

(** The object passed to [setChartData] (lines 111-127). *)
Definition series (data : list HistoricalData) (range : TimeRange) : Chart.ChartData :=
  {| Chart.labels :=
       map (fun item => toLocaleDateString (History.time item) (Chart.labelOptions range)) data;
     Chart.datasets :=
       [ {| Chart.label := "價格 (USD)"%string;
            Chart.data := map (fun item => parseFloat (History.priceUsd item)) data;
            Chart.borderColor := "rgb(75, 192, 192)"%string;
            Chart.tension := Fin (/ 10) |} ] |}.

(** [fetchHistoricalData] (lines 97-133), before and after its [await]. *)
Definition fetchHistoricalData_begin (s : State) : State := setLoadingHistory true s.

Definition fetchHistoricalData_settle (range : TimeRange) (r : historyResponse) (s : State)
  : State :=
  setLoadingHistory false
    match r with
    | HistoryFulfilled data => setChartData (Some (series data range)) (setHistoricalData data s)
    | HistoryRejected => s
    end.

Record World : Type := {
  state : State;
  historyFetches : list (nat * (string * TimeRange));
  issued : nat
}.

Inductive Event : Type :=
| TimeRangeChange (newRange : option TimeRange)
| DialogClose
| HistorySettled (ticket : nat) (r : historyResponse).

Definition startHistoryFetch (cryptoId : string) (range : TimeRange) (w : World) : World :=
  {| state := fetchHistoricalData_begin (state w);
     historyFetches := historyFetches w ++ [(issued w, (cryptoId, range))];
     issued := S (issued w) |}.

Definition withState (f : State -> State) (w : World) : World :=
  {| state := f (state w); historyFetches := historyFetches w; issued := issued w |}.

Definition mounted : World :=
  {| state := initialState; historyFetches := []; issued := 0 |}.

Definition step (w : World) (e : Event) : World :=
  match e with
  | TimeRangeChange newRange =>
      (* handleTimeRangeChange (lines 85-95) *)
      match newRange with
      | Some range =>
          let w1 := withState (setSelectedTimeRange range) w in
          match selectedCrypto (state w) with
          | Some crypto => startHistoryFetch (id crypto) range w1
          | None => w1
          end
      | None => w
      end
  | DialogClose => withState (setSelectedCrypto None) w
  | HistorySettled ticket r =>
      match lookupHistory ticket (historyFetches w) with
      | Some (_, range) =>
          {| state := fetchHistoricalData_settle range r (state w);
             historyFetches := filter (fun p => negb (Nat.eqb ticket (fst p))) (historyFetches w);
             issued := issued w |}
      | None => w
      end
  end.

Definition run (w : World) (trace : list Event) : World := fold_left step trace w.
End Fetch.

End Tracker.

(** ** Further vocabulary *)

(** What [slice(0, maxResults)] cuts off the sorted list. *)
Definition overflow (params : FilterParams) (items : list CryptoData) : list CryptoData :=
  skipn (maxResults params)
        (Array_sort compareScore (map withScore (filtered params items))).

Definition withMaxResults (n : nat) (params : FilterParams) : FilterParams :=
  {| minVolume := minVolume params; minMarketCap := minMarketCap params;
     maxMarketCap := maxMarketCap params; maxResults := n |}.

(** A record as the ranked list holds it: accepted by the filter, and
    carrying the score of its own fields. *)
Definition rankedRecord (params : FilterParams) (coin : CryptoData) : Prop :=
  isValid params coin = true /\ potentialScore coin = Some (calculatePotentialScore coin).

(** The market capitalisation does not parse and the volume is positive. *)
Definition unparsedMarketCap : CryptoData :=
  snapshot "n/a" "5000000" "10" "1" "2".

(** What holds of the list a state shows and of the asset it has selected:
    the list has at most [maxResults] entries, descends by the sort key, and
    its records and the selected one are ranked records. *)
Definition listInvariant (s : State) : Prop :=
  (List.length (data s) <= maxResults filterParams)%nat /\
  StronglySorted (descendingBy scoreOrZero) (data s) /\
  (forall coin, In coin (data s) -> rankedRecord filterParams coin) /\
  (forall coin, selectedCrypto s = Some coin -> rankedRecord filterParams coin).

Definition withChange (change : string) (coin : CryptoData) : CryptoData :=
  {| id := id coin; name := name coin; symbol := symbol coin;
     priceUsd := priceUsd coin; changePercent24Hr := change;
     marketCapUsd := marketCapUsd coin; volumeUsd24Hr := volumeUsd24Hr coin;
     supply := supply coin; maxSupply := maxSupply coin;
     volumeUsd24HrChange := volumeUsd24HrChange coin;
     potentialScore := potentialScore coin |}.

(** ** What the dialog of [PotentialList] shows (lines 642-670)

    The spinner while [loadingHistory] holds, otherwise the chart when
    [chartData] is not [null], otherwise the text "無法加載價格數據". *)

Inductive DialogBody : Type :=
| Spinner
| LineChart (chart : Chart.ChartData)
| LoadFailureText.

Definition dialogBody (toLocaleDateString : Z -> Chart.DateTimeFormatOptions -> string)
  (s : State) : DialogBody :=
  if loadingHistory s then Spinner
  else
    match Chart.chartData toLocaleDateString (historicalData s) (selectedTimeRange s) with
    | Some chart => LineChart chart
    | None => LoadFailureText
    end.

(** ** What a card of the list shows (lines 565-593) *)

Inductive Color : Type := SuccessMain | ErrorMain.

(** [parseFloat(crypto.changePercent24Hr) >= 0 ? 'success.main' : 'error.main'] *)
Definition changeColor (crypto : CryptoData) : Color :=
  if ge (parseFloat (changePercent24Hr crypto)) (of_Z 0) then SuccessMain else ErrorMain.

(** The [value] of the progress bar, [crypto.potentialScore || 0]. *)
Definition progressValue (crypto : CryptoData) : number := scoreOrZero crypto.

(** * Properties *)

(** ** [parseFloat] on sample inputs *)

Section ParseExamples.
Import Parse.
Open Scope string_scope.

Example parse_integer : parse_literal "2000000000" = LDecimal false 2000000000 0.
Proof. reflexivity. Qed.
Example parse_fraction : parse_literal "  -12.50e3xyz" = LDecimal true 1250 1.
Proof. reflexivity. Qed.
Example parse_leading_dot : parse_literal ".5" = LDecimal false 5 (-1).
Proof. reflexivity. Qed.
Example parse_trailing_dot : parse_literal "5.e" = LDecimal false 5 0.
Proof. reflexivity. Qed.
Example parse_infinity : parse_literal "Infinity" = LInfinity false.
Proof. reflexivity. Qed.
Example parse_text : parse_literal "abc" = LNaN.
Proof. reflexivity. Qed.
Example parse_null : parse_literal "null" = LNaN.
Proof. reflexivity. Qed.
Example parse_empty : parse_literal "" = LNaN.
Proof. reflexivity. Qed.
Example parse_dot : parse_literal "." = LNaN.
Proof. reflexivity. Qed.
End ParseExamples.

(** ** Evaluating comparisons and parses *)

Lemma Rleb_true (x y : R) : (x <= y)%R -> Rleb x y = true.
Proof. intros H; unfold Rleb; destruct (Rle_dec x y); [reflexivity | contradiction]. Qed.

Lemma Rleb_false (x y : R) : (y < x)%R -> Rleb x y = false.
Proof. intros H; unfold Rleb; destruct (Rle_dec x y); [lra | reflexivity]. Qed.

Lemma Rltb_true (x y : R) : (x < y)%R -> Rltb x y = true.
Proof. intros H; unfold Rltb; destruct (Rlt_dec x y); [reflexivity | contradiction]. Qed.

Lemma Rltb_false (x y : R) : (y <= x)%R -> Rltb x y = false.
Proof. intros H; unfold Rltb; destruct (Rlt_dec x y); [lra | reflexivity]. Qed.

Lemma Reqb_true (x y : R) : x = y -> Reqb x y = true.
Proof. intros H; unfold Reqb; destruct (Req_dec_T x y); [reflexivity | contradiction]. Qed.

Lemma Reqb_false (x y : R) : x <> y -> Reqb x y = false.
Proof. intros H; unfold Reqb; destruct (Req_dec_T x y); [contradiction | reflexivity]. Qed.

Lemma Rleb_spec (x y : R) : Rleb x y = true <-> (x <= y)%R.
Proof. unfold Rleb; destruct (Rle_dec x y); split; intros; auto; discriminate. Qed.

Lemma Rltb_spec (x y : R) : Rltb x y = true <-> (x < y)%R.
Proof. unfold Rltb; destruct (Rlt_dec x y); split; intros; auto; discriminate. Qed.

(** The operations on finite arguments. *)

Lemma add_Fin (a b : R) : add (Fin a) (Fin b) = Fin (a + b).
Proof. reflexivity. Qed.

Lemma sub_Fin (a b : R) : sub (Fin a) (Fin b) = Fin (a - b).
Proof. reflexivity. Qed.

Lemma mul_Fin (a b : R) : mul (Fin a) (Fin b) = Fin (a * b).
Proof. reflexivity. Qed.

Lemma div_Fin (a b : R) : b <> 0%R -> div (Fin a) (Fin b) = Fin (a / b).
Proof. intros H; cbn [div]; now rewrite Reqb_false. Qed.

Lemma le_Fin (a b : R) : le (Fin a) (Fin b) = Rleb a b.
Proof. reflexivity. Qed.

Lemma lt_Fin (a b : R) : lt (Fin a) (Fin b) = Rltb a b.
Proof. reflexivity. Qed.

Lemma ge_Fin (a b : R) : ge (Fin a) (Fin b) = Rleb b a.
Proof. reflexivity. Qed.

Lemma gt_Fin (a b : R) : gt (Fin a) (Fin b) = Rltb b a.
Proof. reflexivity. Qed.

Lemma Math_min_Fin (a b : R) :
  Math_min (Fin a) (Fin b) = if Rleb a b then Fin a else Fin b.
Proof. reflexivity. Qed.

Lemma Math_max_Fin (a b : R) :
  Math_max (Fin a) (Fin b) = if Rleb a b then Fin b else Fin a.
Proof. reflexivity. Qed.

Lemma Math_log_Fin (a : R) : (0 < a)%R -> Math_log (Fin a) = Fin (ln a).
Proof.
  intros H; unfold Math_log.
  rewrite Rltb_false by lra. rewrite Reqb_false by lra. reflexivity.
Qed.

(** Decide every comparison of real constants in the goal. *)
Ltac real_tests :=
  repeat match goal with
    | |- context [Rleb ?a ?b] =>
        first [rewrite (@Rleb_true a b) by lra | rewrite (@Rleb_false a b) by lra]
    | |- context [Rltb ?a ?b] =>
        first [rewrite (@Rltb_true a b) by lra | rewrite (@Rltb_false a b) by lra]
    | |- context [Reqb ?a ?b] =>
        first [rewrite (@Reqb_true a b) by lra | rewrite (@Reqb_false a b) by lra]
    end.

(** Push the operations through finite operands, deciding the tests met. *)
Ltac js_step :=
  first
    [ rewrite add_Fin | rewrite sub_Fin | rewrite mul_Fin
    | rewrite le_Fin | rewrite lt_Fin | rewrite ge_Fin | rewrite gt_Fin
    | rewrite Math_min_Fin | rewrite Math_max_Fin
    | rewrite Math_log_Fin by lra
    | rewrite div_Fin by lra
    | progress real_tests
    | progress cbn [andb orb negb isNaN] ].

Ltac js_eval := unfold of_Z; repeat js_step.

Lemma parseFloat_decimal (s : string) (m : Z) :
  Parse.parse_literal s = Parse.LDecimal false m 0 -> parseFloat s = of_Z m.
Proof.
  intros H; unfold parseFloat; rewrite H; cbn.
  now rewrite Z.mul_1_r.
Qed.

Lemma parseFloat_negative (s : string) (m : Z) :
  Parse.parse_literal s = Parse.LDecimal true m 0 -> parseFloat s = Fin (- IZR m).
Proof.
  intros H; unfold parseFloat; rewrite H; cbn.
  now rewrite Z.mul_1_r.
Qed.

Lemma parseFloat_NaN (s : string) :
  Parse.parse_literal s = Parse.LNaN -> parseFloat s = NaN.
Proof. intros H; unfold parseFloat; now rewrite H. Qed.

Lemma parseFloat_Infinity (s : string) :
  Parse.parse_literal s = Parse.LInfinity false -> parseFloat s = PInf.
Proof. intros H; unfold parseFloat; now rewrite H. Qed.

Lemma Math_round_integer (x : R) (z : Z) :
  (IZR z - / 2 <= x < IZR z + / 2)%R -> Math_round (Fin x) = of_Z z.
Proof.
  intros H; unfold Math_round, of_Z; f_equal; f_equal.
  apply Zfloor_eq; lra.
Qed.

Lemma ln_band_pos : (0 < ln 5000000000 - ln 1000000)%R.
Proof.
  assert (ln 1000000 < ln 5000000000)%R by (apply ln_increasing; lra).
  lra.
Qed.

(** ** The score of sample snapshots *)

(** Replace every [parseFloat] of a string constant by its value. *)
Ltac parse_strings :=
  repeat match goal with
    | |- context [parseFloat ?s] =>
        let l := eval vm_compute in (Parse.parse_literal s) in
        lazymatch l with
        | Parse.LDecimal false ?m 0%Z => rewrite (@parseFloat_decimal s m) by reflexivity
        | Parse.LDecimal true ?m 0%Z => rewrite (@parseFloat_negative s m) by reflexivity
        | Parse.LNaN => rewrite (@parseFloat_NaN s) by reflexivity
        | Parse.LInfinity false => rewrite (@parseFloat_Infinity s) by reflexivity
        end
    end.

(** Evaluate the filter of the component on a sample record. *)
Ltac filter_test :=
  unfold isValid, isValid_try, try_catch, snapshot, filterParams;
  cbn [marketCapUsd volumeUsd24Hr changePercent24Hr minVolume minMarketCap maxMarketCap];
  parse_strings; js_eval; reflexivity.

(** Unfold the score of a sample record down to its sub-scores. *)
Ltac open_score :=
  unfold calculatePotentialScore, calculatePotentialScore_try, try_catch;
  cbn [marketCapUsd volumeUsd24Hr changePercent24Hr supply maxSupply];
  parse_strings.

Lemma marketCapScore_ceiling : marketCapScore (of_Z 5000000000) = Fin 0.
Proof.
  pose proof ln_band_pos as Hband.
  unfold marketCapScore. js_eval.
  f_equal. field. lra.
Qed.

Lemma marketCapScore_floor : marketCapScore (of_Z 1000000) = Fin 30.
Proof.
  pose proof ln_band_pos as Hband.
  unfold marketCapScore. js_eval.
  f_equal. field. lra.
Qed.

Lemma negativeSupply_score : calculatePotentialScore negativeSupply = of_Z 120.
Proof.
  unfold negativeSupply, snapshot. open_score.
  rewrite marketCapScore_floor.
  unfold volumeScore, supplyScore, trendScore. js_eval.
  apply Math_round_integer. lra.
Qed.

Lemma negativeSupply_valid : isValid filterParams negativeSupply = true.
Proof. unfold negativeSupply. filter_test. Qed.

Lemma overSupplied_score : calculatePotentialScore overSupplied = of_Z (-95).
Proof.
  unfold overSupplied, snapshot. open_score.
  rewrite marketCapScore_ceiling.
  unfold volumeScore, supplyScore, trendScore. js_eval.
  apply Math_round_integer. lra.
Qed.

Lemma overSupplied_valid : isValid filterParams overSupplied = true.
Proof. unfold overSupplied. filter_test. Qed.

Lemma unparsedSupply_valid : isValid filterParams unparsedSupply = true.
Proof. unfold unparsedSupply. filter_test. Qed.

(** C1: the score of [overSupplied], a record that passes the filter of the
    component, is -95: its supply sub-score is 20 * (1 - 7) = -120, outside
    the 0-20 range the comment of the source announces.  The score of
    [negativeSupply], which passes the filter too, is 120.  Neither lies in
    [0, 100]. *)
Theorem C1_score_outside_range :
  isValid filterParams overSupplied = true /\
  supplyScore (parseFloat (supply overSupplied)) (parseFloat (maxSupply overSupplied))
    = of_Z (-120) /\
  calculatePotentialScore overSupplied = of_Z (-95) /\
  lt (calculatePotentialScore overSupplied) (of_Z 0) = true /\
  isValid filterParams negativeSupply = true /\
  calculatePotentialScore negativeSupply = of_Z 120 /\
  gt (calculatePotentialScore negativeSupply) (of_Z 100) = true.
Proof.
  split; [exact overSupplied_valid | split; [| split; [| split]]].
  - unfold overSupplied, snapshot. cbn [supply maxSupply]. parse_strings.
    unfold supplyScore. js_eval. unfold of_Z. f_equal. lra.
  - exact overSupplied_score.
  - rewrite overSupplied_score. js_eval. reflexivity.
  - split; [exact negativeSupply_valid | split; [exact negativeSupply_score |]].
    rewrite negativeSupply_score. js_eval. reflexivity.
Qed.

(** ** Bounds on the logarithms of scenario 1 *)

Lemma ln_power_lt (x y : Z) (a b : nat) :
  (0 < x)%Z -> (0 < y)%Z -> (x ^ Z.of_nat a < y ^ Z.of_nat b)%Z ->
  (INR a * ln (IZR x) < INR b * ln (IZR y))%R.
Proof.
  intros Hx Hy Hlt.
  assert (0 < IZR x)%R by now apply IZR_lt.
  assert (0 < IZR y)%R by now apply IZR_lt.
  rewrite <- !ln_pow by assumption.
  apply ln_increasing.
  - now apply pow_lt.
  - rewrite !pow_IZR. now apply IZR_lt.
Qed.

Lemma ln_2e9_split : (ln 2000000000 - ln 1000000 = ln 2000)%R.
Proof.
  replace 2000000000%R with (2000 * 1000000)%R by lra.
  rewrite ln_mult by lra. lra.
Qed.

Lemma ln_5e9_split : (ln 5000000000 - ln 1000000 = ln 5000)%R.
Proof.
  replace 5000000000%R with (5000 * 1000000)%R by lra.
  rewrite ln_mult by lra. lra.
Qed.

Lemma ln_2000_lower : (89 * ln 5000 < 100 * ln 2000)%R.
Proof.
  pose proof (@ln_power_lt 5000 2000 89 100 eq_refl eq_refl eq_refl) as H.
  rewrite !INR_IZR_INZ in H. exact H.
Qed.

Lemma ln_2000_upper : (75 * ln 2000 < 67 * ln 5000)%R.
Proof.
  pose proof (@ln_power_lt 2000 5000 75 67 eq_refl eq_refl eq_refl) as H.
  rewrite !INR_IZR_INZ in H. exact H.
Qed.

Lemma ln_5000_pos : (0 < ln 5000)%R.
Proof. rewrite <- ln_1. apply ln_increasing; lra. Qed.

(** The capitalisation score of a market capitalisation of 2e9. *)
Lemma marketCapScore_2e9 :
  exists c : R, marketCapScore (of_Z 2000000000) = Fin c /\ (3.2 < c < 3.3)%R.
Proof.
  pose proof ln_band_pos as Hband.
  pose proof ln_2000_lower as Hlo. pose proof ln_2000_upper as Hup.
  pose proof ln_5000_pos as Hpos.
  eexists; split.
  - unfold marketCapScore. js_eval. reflexivity.
  - rewrite ln_2e9_split, ln_5e9_split.
    assert (Hq : (0.89 < ln 2000 / ln 5000 < 67 / 75)%R).
    { split.
      - apply Rmult_lt_reg_r with (ln 5000); [assumption |].
        unfold Rdiv. rewrite Rmult_assoc, Rinv_l by lra. lra.
      - apply Rmult_lt_reg_r with (ln 5000); [assumption |].
        unfold Rdiv at 1. rewrite Rmult_assoc, Rinv_l by lra. lra. }
    lra.
Qed.

Lemma scenario1_volume : volumeScore (of_Z 1000000000) (of_Z 2000000000) = of_Z 25.
Proof. unfold volumeScore. js_eval. reflexivity. Qed.

Lemma scenario1_supply : supplyScore (of_Z 500000) (of_Z 1000000) = of_Z 10.
Proof. unfold supplyScore. js_eval. unfold of_Z. f_equal. lra. Qed.

Lemma scenario1_trend : trendScore (of_Z 10) = of_Z 10.
Proof. unfold trendScore. js_eval. reflexivity. Qed.

Lemma scenario1_score : calculatePotentialScore scenario1 = of_Z 48.
Proof.
  destruct marketCapScore_2e9 as (c & Hc & Hlo & Hhi).
  unfold scenario1, snapshot. open_score.
  rewrite scenario1_volume, scenario1_supply, scenario1_trend, Hc.
  js_eval. apply Math_round_integer. lra.
Qed.

(** C4 (as stated): the score of scenario 1 is not 55 but 48, and its
    capitalisation part is below 4, not about 9.9. *)
Lemma C4_not_55 :
  calculatePotentialScore scenario1 <> of_Z 55 /\
  lt (calculatePotentialScore scenario1) (of_Z 49) = true /\
  lt (marketCapScore (parseFloat (marketCapUsd scenario1))) (of_Z 4) = true.
Proof.
  rewrite scenario1_score.
  split; [| split].
  - unfold of_Z. intros H. injection H as H. lra.
  - js_eval. reflexivity.
  - destruct marketCapScore_2e9 as (c & Hc & Hlo & Hhi).
    unfold scenario1, snapshot. cbn [marketCapUsd]. parse_strings.
    rewrite Hc. js_eval. reflexivity.
Qed.

(** C4 (amended): for scenario 1 the capitalisation score lies between 3.2
    and 3.3, the volume score is 25, the supply score 10 and the trend score
    10, and [calculatePotentialScore] returns 48. *)
Theorem C4_scenario1_score :
  (exists c : R,
      marketCapScore (parseFloat (marketCapUsd scenario1)) = Fin c /\ (3.2 < c < 3.3)%R) /\
  volumeScore (parseFloat (volumeUsd24Hr scenario1)) (parseFloat (marketCapUsd scenario1))
    = of_Z 25 /\
  supplyScore (parseFloat (supply scenario1)) (parseFloat (maxSupply scenario1)) = of_Z 10 /\
  trendScore (parseFloat (changePercent24Hr scenario1)) = of_Z 10 /\
  calculatePotentialScore scenario1 = of_Z 48.
Proof.
  unfold scenario1 at 1 2 3 4 5 6 7, snapshot.
  cbn [marketCapUsd volumeUsd24Hr changePercent24Hr supply maxSupply].
  parse_strings.
  repeat split.
  - exact marketCapScore_2e9.
  - exact scenario1_volume.
  - exact scenario1_supply.
  - exact scenario1_trend.
  - exact scenario1_score.
Qed.

(** ** Fields that fail to parse *)

Lemma supplyScore_NaN (sup maxSup : number) :
  isNaN sup = true \/ isNaN maxSup = true -> supplyScore sup maxSup = of_Z 0.
Proof.
  intros [H | H]; unfold supplyScore; rewrite H; cbn [negb andb]; [reflexivity |].
  now rewrite andb_false_r.
Qed.

Lemma unparsedSupply_score : calculatePotentialScore unparsedSupply = of_Z 35.
Proof.
  unfold unparsedSupply, snapshot. open_score.
  rewrite marketCapScore_ceiling.
  unfold volumeScore, supplyScore, trendScore. js_eval.
  apply Math_round_integer. lra.
Qed.

(** C5 (as stated): the supply of [unparsedSupply] does not parse, and its
    score is 35, not 0. *)
Lemma C5_unparsed_supply_scores_35 :
  isNaN (parseFloat (supply unparsedSupply)) = true /\
  calculatePotentialScore unparsedSupply = of_Z 35 /\
  calculatePotentialScore unparsedSupply <> of_Z 0.
Proof.
  rewrite unparsedSupply_score.
  split; [reflexivity | split; [reflexivity |]].
  unfold of_Z. intros H. injection H as H. lra.
Qed.

Lemma marketCapScore_NaN : marketCapScore NaN = of_Z 0.
Proof. reflexivity. Qed.

Lemma volumeScore_NaN (marketCap : number) : volumeScore NaN marketCap = of_Z 0.
Proof. reflexivity. Qed.

Lemma trendScore_NaN : trendScore NaN = of_Z 0.
Proof. reflexivity. Qed.

Lemma isNaN_true (x : number) : isNaN x = true -> x = NaN.
Proof. now destruct x. Qed.

(** C5 (amended): when a numeric field of a snapshot does not parse, the
    sub-score computed from that field is 0 (the capitalisation score for
    [marketCapUsd], the volume score for [volumeUsd24Hr], the trend score
    for [changePercent24Hr], the supply score for [supply] or [maxSupply]),
    and the result is not 0 for the whole score but the rounded sum of the
    four sub-scores; the [try] block completes normally, so nothing is
    thrown and the [catch] that returns 0 is not taken. *)
Theorem C5_unparsed_field_zeroes_its_sub_score (coin : CryptoData) :
  isNaN (parseFloat (marketCapUsd coin)) = true \/
  isNaN (parseFloat (volumeUsd24Hr coin)) = true \/
  isNaN (parseFloat (changePercent24Hr coin)) = true \/
  isNaN (parseFloat (supply coin)) = true \/
  isNaN (parseFloat (maxSupply coin)) = true ->
  let marketCap := parseFloat (marketCapUsd coin) in
  let volume := parseFloat (volumeUsd24Hr coin) in
  let changePercent := parseFloat (changePercent24Hr coin) in
  let total :=
    Math_round
      (add (add (add (marketCapScore marketCap) (volumeScore volume marketCap))
                (supplyScore (parseFloat (supply coin)) (parseFloat (maxSupply coin))))
           (trendScore changePercent)) in
  (marketCapScore marketCap = of_Z 0 \/
   volumeScore volume marketCap = of_Z 0 \/
   trendScore changePercent = of_Z 0 \/
   supplyScore (parseFloat (supply coin)) (parseFloat (maxSupply coin)) = of_Z 0) /\
  (isNaN marketCap = true -> marketCapScore marketCap = of_Z 0) /\
  (isNaN volume = true -> volumeScore volume marketCap = of_Z 0) /\
  (isNaN changePercent = true -> trendScore changePercent = of_Z 0) /\
  (isNaN (parseFloat (supply coin)) = true \/ isNaN (parseFloat (maxSupply coin)) = true ->
   supplyScore (parseFloat (supply coin)) (parseFloat (maxSupply coin)) = of_Z 0) /\
  calculatePotentialScore_try coin = Normal total /\
  calculatePotentialScore coin = total.
Proof.
  intros Hsome marketCap volume changePercent total.
  assert (H1 : isNaN marketCap = true -> marketCapScore marketCap = of_Z 0)
    by (intros H; rewrite (isNaN_true _ H); exact marketCapScore_NaN).
  assert (H2 : isNaN volume = true -> volumeScore volume marketCap = of_Z 0)
    by (intros H; rewrite (isNaN_true _ H); apply volumeScore_NaN).
  assert (H3 : isNaN changePercent = true -> trendScore changePercent = of_Z 0)
    by (intros H; rewrite (isNaN_true _ H); exact trendScore_NaN).
  split; [| split; [| split; [| split; [| split; [| split]]]]].
  - destruct Hsome as [H | [H | [H | H]]].
    + left. now apply H1.
    + right. left. now apply H2.
    + right. right. left. now apply H3.
    + right. right. right. now apply supplyScore_NaN.
  - exact H1.
  - exact H2.
  - exact H3.
  - apply supplyScore_NaN.
  - reflexivity.
  - reflexivity.
Qed.

(** The amended C5 at [unparsedSupply], whose supply does not parse, and at
    a record whose volume does not parse. *)
Lemma C5_unparsed_field_witness :
  (supplyScore (parseFloat (supply unparsedSupply)) (parseFloat (maxSupply unparsedSupply))
     = of_Z 0 /\
   calculatePotentialScore unparsedSupply =
     Math_round
       (add (add (add (marketCapScore (parseFloat (marketCapUsd unparsedSupply)))
                      (volumeScore (parseFloat (volumeUsd24Hr unparsedSupply))
                                   (parseFloat (marketCapUsd unparsedSupply))))
                 (supplyScore (parseFloat (supply unparsedSupply))
                              (parseFloat (maxSupply unparsedSupply))))
            (trendScore (parseFloat (changePercent24Hr unparsedSupply))))) /\
  volumeScore (parseFloat (volumeUsd24Hr unparsedVolume))
              (parseFloat (marketCapUsd unparsedVolume)) = of_Z 0.
Proof.
  split.
  - destruct (@C5_unparsed_field_zeroes_its_sub_score unparsedSupply
                (or_intror (or_intror (or_intror (or_introl eq_refl)))))
      as (_ & _ & _ & _ & H4 & _ & H6).
    split; [apply H4; now left | exact H6].
  - destruct (@C5_unparsed_field_zeroes_its_sub_score unparsedVolume
                (or_intror (or_introl eq_refl)))
      as (_ & _ & H2 & _).
    apply H2. reflexivity.
Defined.

(** ** The order of numbers *)

Ltac number_cases :=
  unfold ge, gt, of_Z in *; cbn [le lt eqb isNaN sub neg add or_zero] in *;
  unfold Rleb, Rltb, Reqb in *;
  repeat match goal with
    | |- context [Rle_dec ?a ?b] => destruct (Rle_dec a b)
    | |- context [Rlt_dec ?a ?b] => destruct (Rlt_dec a b)
    | |- context [Req_dec_T ?a ?b] => destruct (Req_dec_T a b)
    | H : context [Rle_dec ?a ?b] |- _ => destruct (Rle_dec a b)
    | H : context [Rlt_dec ?a ?b] |- _ => destruct (Rlt_dec a b)
    | H : context [Req_dec_T ?a ?b] |- _ => destruct (Req_dec_T a b)
    end;
  try reflexivity; try discriminate; try (exfalso; lra).

Lemma le_trans (a b c : number) : le a b = true -> le b c = true -> le a c = true.
Proof. destruct a, b, c; intros H1 H2; number_cases. Qed.

Lemma lt_le (a b : number) : lt a b = true -> le a b = true.
Proof. destruct a, b; intros H; number_cases. Qed.

Lemma not_lt_le (a b : number) :
  isNaN a = false -> isNaN b = false -> lt a b = false -> le b a = true.
Proof. destruct a, b; intros Ha Hb H; number_cases. Qed.

Lemma le_not_lt (a b : number) : le b a = true -> lt a b = false.
Proof. destruct a, b; intros H; number_cases. Qed.

Lemma lt_not_ge (a b : number) : lt a b = true -> ge a b = false.
Proof. destruct a, b; intros H; number_cases. Qed.

Lemma positive_difference (a b : number) :
  isNaN a = false -> isNaN b = false -> gt (sub b a) (of_Z 0) = lt a b.
Proof. destruct a, b; intros Ha Hb; number_cases. Qed.

Lemma eqb_not_lt (a b k : number) : eqb a k = true -> eqb b k = true -> lt a b = false.
Proof. destruct a, b, k; intros Ha Hb; number_cases. Qed.

Lemma or_zero_not_NaN (x : number) : isNaN (or_zero x) = false.
Proof. now destruct x. Qed.

Lemma scoreOrZero_not_NaN (coin : CryptoData) : isNaN (scoreOrZero coin) = false.
Proof. unfold scoreOrZero. destruct (potentialScore coin); [apply or_zero_not_NaN | reflexivity]. Qed.

(** ** The sort as a permutation *)

Section SortFacts.
Variable A : Type.
Variable compareFn : A -> A -> number.

Lemma sort_insert_perm (x : A) (l : list A) :
  Permutation (sort_insert compareFn x l) (x :: l).
Proof.
  induction l as [| y l IH]; cbn [sort_insert]; [reflexivity |].
  destruct (gt (compareFn x y) (of_Z 0)); [| reflexivity].
  rewrite IH. apply perm_swap.
Qed.

Lemma Array_sort_perm (l : list A) : Permutation (Array_sort compareFn l) l.
Proof.
  induction l as [| x l IH]; cbn [Array_sort fold_right]; [reflexivity |].
  fold (Array_sort compareFn l).
  rewrite sort_insert_perm. now constructor.
Qed.

Lemma Array_sort_In (x : A) (l : list A) : In x (Array_sort compareFn l) <-> In x l.
Proof.
  split; apply Permutation_in; [| symmetry]; apply Array_sort_perm.
Qed.
End SortFacts.

(** ** Prefixes *)

Lemma In_firstn (A : Type) (n : nat) (l : list A) (x : A) : In x (firstn n l) -> In x l.
Proof.
  intros H. rewrite <- (firstn_skipn n l). apply in_or_app. now left.
Qed.

(** ** The filter *)

Lemma isValid_spec (params : FilterParams) (coin : CryptoData) :
  isValid params coin = true <->
  isNaN (parseFloat (volumeUsd24Hr coin)) = false /\
  isNaN (parseFloat (marketCapUsd coin)) = false /\
  isNaN (parseFloat (changePercent24Hr coin)) = false /\
  ge (parseFloat (volumeUsd24Hr coin)) (minVolume params) = true /\
  ge (parseFloat (marketCapUsd coin)) (minMarketCap params) = true /\
  le (parseFloat (marketCapUsd coin)) (maxMarketCap params) = true.
Proof.
  unfold isValid, isValid_try, try_catch.
  rewrite !andb_true_iff, !negb_true_iff. tauto.
Qed.

Lemma ranked_from_filtered (params : FilterParams) (items : list CryptoData) (out : CryptoData) :
  In out (ranked params items) ->
  exists coin, In coin (filtered params items) /\ out = withScore coin.
Proof.
  unfold ranked. intros H.
  apply In_firstn, Array_sort_In, in_map_iff in H.
  destruct H as (coin & Heq & Hin). now exists coin.
Qed.

Lemma infiniteChange_valid : isValid filterParams infiniteChange = true.
Proof. unfold infiniteChange. filter_test. Qed.

(** C6 (as stated): the change of [infiniteChange] parses to [Infinity],
    which is not a finite number, and the record is kept by the filter. *)
Lemma C6_infinite_change_kept :
  isFinite (parseFloat (changePercent24Hr infiniteChange)) = false /\
  In infiniteChange (filtered filterParams [infiniteChange]).
Proof.
  split; [reflexivity |].
  unfold filtered. cbn [filter]. rewrite infiniteChange_valid. now left.
Qed.

(** C6 (amended): a snapshot is in the filtered set exactly when it is in the
    input, its volume, market capitalisation and 24 hour change do not parse
    to NaN ([Infinity] is accepted), volume >= minVolume and
    minMarketCap <= marketCap <= maxMarketCap; and no record of the ranked
    list has a volume below minVolume. *)
Theorem C6_filtered_iff (params : FilterParams) (items : list CryptoData) (coin : CryptoData) :
  (In coin (filtered params items) <->
   In coin items /\
   isNaN (parseFloat (volumeUsd24Hr coin)) = false /\
   isNaN (parseFloat (marketCapUsd coin)) = false /\
   isNaN (parseFloat (changePercent24Hr coin)) = false /\
   ge (parseFloat (volumeUsd24Hr coin)) (minVolume params) = true /\
   ge (parseFloat (marketCapUsd coin)) (minMarketCap params) = true /\
   le (parseFloat (marketCapUsd coin)) (maxMarketCap params) = true) /\
  (In coin (ranked params items) ->
   lt (parseFloat (volumeUsd24Hr coin)) (minVolume params) = false).
Proof.
  split.
  - unfold filtered. rewrite filter_In, isValid_spec. tauto.
  - intros H. apply ranked_from_filtered in H. destruct H as (c & Hin & ->).
    unfold filtered in Hin. apply filter_In in Hin. destruct Hin as [_ Hv].
    apply isValid_spec in Hv. destruct Hv as (_ & _ & _ & Hge & _).
    cbn [withScore volumeUsd24Hr].
    destruct (lt (parseFloat (volumeUsd24Hr c)) (minVolume params)) eqn:E; [| reflexivity].
    apply lt_not_ge in E. congruence.
Qed.

(** The amended C6 at [overSupplied], which the filter keeps. *)
Lemma C6_filtered_witness :
  In overSupplied (filtered filterParams [overSupplied]) /\
  lt (parseFloat (volumeUsd24Hr (withScore overSupplied))) (minVolume filterParams) = false.
Proof.
  split.
  - apply (proj1 (C6_filtered_iff filterParams [overSupplied] overSupplied)).
    split; [now left | exact (proj1 (isValid_spec _ _) overSupplied_valid)].
  - apply (proj2 (C6_filtered_iff filterParams [overSupplied] (withScore overSupplied))).
    unfold ranked, filtered. cbn [filter]. rewrite overSupplied_valid.
    now left.
Defined.

(** ** The sort by a key

    A comparator that returns [key b - key a] for a key that is never NaN
    sorts by descending key and keeps the order of equal keys. *)

Section SortByKey.
Variable A : Type.
Variable key : A -> number.
Variable compareFn : A -> A -> number.
Hypothesis key_not_NaN : forall a, isNaN (key a) = false.
Hypothesis compareFn_key : forall a b, compareFn a b = sub (key b) (key a).

Lemma compareFn_positive (x y : A) : gt (compareFn x y) (of_Z 0) = lt (key x) (key y).
Proof. rewrite compareFn_key. now apply positive_difference. Qed.

Lemma sort_insert_sorted (x : A) (l : list A) :
  StronglySorted (descendingBy key) l -> StronglySorted (descendingBy key) (sort_insert compareFn x l).
Proof.
  induction 1 as [| y l Hl IH Hy]; cbn [sort_insert].
  - constructor; constructor.
  - rewrite compareFn_positive.
    destruct (lt (key x) (key y)) eqn:E.
    + constructor; [exact IH |].
      rewrite sort_insert_perm.
      constructor; [| exact Hy]. unfold descendingBy. now apply lt_le.
    + assert (Hxy : descendingBy key x y)
        by (unfold descendingBy; now apply not_lt_le).
      constructor; [now constructor |].
      constructor; [exact Hxy |].
      eapply Forall_impl; [| exact Hy].
      intros z Hz. unfold descendingBy in *. eapply le_trans; eassumption.
Qed.

Lemma Array_sort_sorted (l : list A) : StronglySorted (descendingBy key) (Array_sort compareFn l).
Proof.
  induction l as [| x l IH]; cbn [Array_sort fold_right]; [constructor |].
  now apply sort_insert_sorted.
Qed.

Lemma sort_insert_stable (k : number) (x : A) (l : list A) :
  filter (fun a => eqb (key a) k) (sort_insert compareFn x l) =
  filter (fun a => eqb (key a) k) (x :: l).
Proof.
  induction l as [| y l IH]; cbn [sort_insert]; [reflexivity |].
  rewrite compareFn_positive.
  destruct (lt (key x) (key y)) eqn:E; [| reflexivity].
  cbn [filter] in *. rewrite IH.
  destruct (eqb (key x) k) eqn:Ex; [| reflexivity].
  destruct (eqb (key y) k) eqn:Ey; [| reflexivity].
  rewrite (eqb_not_lt _ _ _ Ex Ey) in E. discriminate.
Qed.

Lemma Array_sort_stable (k : number) (l : list A) :
  filter (fun a => eqb (key a) k) (Array_sort compareFn l) =
  filter (fun a => eqb (key a) k) l.
Proof.
  induction l as [| x l IH]; cbn [Array_sort fold_right]; [reflexivity |].
  fold (Array_sort compareFn l).
  rewrite sort_insert_stable. cbn [filter]. now rewrite IH.
Qed.
End SortByKey.

Lemma StronglySorted_firstn (A : Type) (R : A -> A -> Prop) (n : nat) (l : list A) :
  StronglySorted R l -> StronglySorted R (firstn n l).
Proof.
  intros H. revert n.
  induction H as [| x l Hl IH Hx]; intros [| n]; cbn [firstn]; try constructor.
  - apply IH.
  - apply Forall_forall. intros y Hy. apply In_firstn in Hy.
    now apply (proj1 (Forall_forall _ _) Hx).
Qed.

Lemma filter_firstn_prefix (A : Type) (p : A -> bool) (n : nat) (l : list A) :
  filter p l = filter p (firstn n l) ++ filter p (skipn n l).
Proof. now rewrite <- filter_app, firstn_skipn. Qed.

Lemma StronglySorted_impl (A : Type) (R S : A -> A -> Prop) (l : list A) :
  (forall a b, In a l -> In b l -> R a b -> S a b) ->
  StronglySorted R l -> StronglySorted S l.
Proof.
  intros HRS H. induction H as [| x l Hl IH Hx]; constructor.
  - apply IH. intros a b Ha Hb. apply HRS; now right.
  - apply Forall_forall. intros y Hy. apply HRS; [now left | now right |].
    now apply (proj1 (Forall_forall _ _) Hx).
Qed.

(** ** The ranked list *)

Example Array_sort_sample :
  Array_sort (fun a b : Z * string => sub (of_Z (fst b)) (of_Z (fst a)))
    [(35, "a"); (48, "b"); (35, "c"); (-95, "d"); (48, "e")]%Z%string
  = [(48, "b"); (48, "e"); (35, "a"); (35, "c"); (-95, "d")]%Z%string.
Proof.
  cbn [Array_sort fold_right].
  repeat (cbn [sort_insert fst]; unfold of_Z; rewrite ?sub_Fin, ?gt_Fin; real_tests).
  reflexivity.
Qed.

Lemma compareScore_key (a b : CryptoData) :
  compareScore a b = sub (scoreOrZero b) (scoreOrZero a).
Proof. reflexivity. Qed.

Lemma descending_notBelow (a b : CryptoData) :
  descendingBy scoreOrZero a b -> notBelow scoreOf a b.
Proof.
  unfold descendingBy, notBelow, scoreOrZero, scoreOf.
  destruct (potentialScore a) as [[| | | x] |], (potentialScore b) as [[| | | y] |];
    intros H; try reflexivity; try (now apply le_not_lt); cbn in *; discriminate.
Qed.

(** C7: the ranked list has at most [maxResults] entries; it descends by
    the key of the comparator, [potentialScore || 0], hence no entry has a
    score below that of a later entry; it is the first [maxResults] entries of
    a permutation of the scored filtered input; and the entries of any one key
    are, in their input order, the first of the input with that key. *)
Theorem C7_ranked_bounded_sorted_stable (params : FilterParams) (items : list CryptoData) :
  (List.length (ranked params items) <= maxResults params)%nat /\
  StronglySorted (descendingBy scoreOrZero) (ranked params items) /\
  StronglySorted (notBelow scoreOf) (ranked params items) /\
  (exists sorted,
      Permutation sorted (map withScore (filtered params items)) /\
      ranked params items = firstn (maxResults params) sorted) /\
  (forall k, exists rest,
      filter (tied k) (map withScore (filtered params items)) =
      filter (tied k) (ranked params items) ++ rest).
Proof.
  assert (Hsorted : StronglySorted (descendingBy scoreOrZero) (ranked params items)).
  { unfold ranked. apply StronglySorted_firstn.
    apply Array_sort_sorted; [exact scoreOrZero_not_NaN | exact compareScore_key]. }
  split; [| split; [| split; [| split]]].
  - unfold ranked. apply firstn_le_length.
  - exact Hsorted.
  - eapply StronglySorted_impl; [| exact Hsorted].
    intros a b _ _. apply descending_notBelow.
  - eexists. split; [apply Array_sort_perm | reflexivity].
  - intros k. unfold ranked.
    exists (filter (tied k)
              (skipn (maxResults params)
                     (Array_sort compareScore (map withScore (filtered params items))))).
    rewrite <- filter_firstn_prefix.
    symmetry. unfold tied.
    apply Array_sort_stable with (key := scoreOrZero);
      [exact scoreOrZero_not_NaN | exact compareScore_key].
Qed.

(** ** The chart series *)

Lemma labelOptions_hour (range : TimeRange) :
  Chart.hour (Chart.labelOptions range) =
  if TimeRange_eqb range R24H then Some "numeric"%string else None.
Proof. reflexivity. Qed.

Lemma TimeRange_eqb_eq (a b : TimeRange) : TimeRange_eqb a b = true <-> a = b.
Proof. destruct a, b; cbn; split; intros H; try reflexivity; discriminate. Qed.

(** C8 (as stated): for the empty sequence [chartData] is [null], not an
    empty series; the chart of the state before any fetch is [null] as well,
    and a fetch that returns no point leaves the history as it was before any
    fetch. *)
Lemma C8_empty_history_gives_null :
  Chart.chartData plainLabel [] R7D = None /\
  Chart.chartData plainLabel (historicalData initialState) (selectedTimeRange initialState)
    = Chart.chartData plainLabel [] R7D /\
  historicalData
    (fetchHistoricalData_settle (HistoryFulfilled []) (fetchHistoricalData_begin initialState))
    = historicalData initialState.
Proof. repeat split. Qed.

(** C8 (amended): for a non-empty sequence [chartData] holds one label and
    one value per point, those at index [i] made from the point at index [i]
    (the label from its time, the value [parseFloat] of its price); the label
    options ask for the hour exactly for the 24H range; for the empty
    sequence [chartData] is [null], as before any fetch. *)
Theorem C8_chartData_pointwise
  (toLocaleDateString : Z -> Chart.DateTimeFormatOptions -> string)
  (points : list HistoricalData) (range : TimeRange) :
  (points = [] -> Chart.chartData toLocaleDateString points range = None) /\
  (points <> [] ->
   exists chart dataset,
     Chart.chartData toLocaleDateString points range = Some chart /\
     Chart.datasets chart = [dataset] /\
     List.length (Chart.labels chart) = List.length points /\
     List.length (Chart.data dataset) = List.length points /\
     forall i point,
       nth_error points i = Some point ->
       nth_error (Chart.labels chart) i
         = Some (toLocaleDateString (History.time point) (Chart.labelOptions range)) /\
       nth_error (Chart.data dataset) i = Some (parseFloat (History.priceUsd point))) /\
  (Chart.hour (Chart.labelOptions range) <> None <-> range = R24H).
Proof.
  split; [| split].
  - intros ->. reflexivity.
  - intros Hne. destruct points as [| p ps]; [contradiction |].
    unfold Chart.chartData. cbn [List.length Nat.eqb].
    eexists. eexists. split; [reflexivity |].
    cbn [Chart.datasets Chart.labels].
    split; [reflexivity |].
    cbn [Chart.data]. rewrite !length_map.
    split; [reflexivity | split; [reflexivity |]].
    intros i point Hi.
    split; rewrite nth_error_map, Hi; reflexivity.
  - rewrite labelOptions_hour, <- TimeRange_eqb_eq.
    destruct (TimeRange_eqb range R24H); split; intros H; try discriminate; congruence.
Qed.

(** The amended C8 at a history of two points, for the 24H range. *)
Lemma C8_chartData_witness :
  exists chart dataset,
    Chart.chartData plainLabel samplePoints R24H = Some chart /\
    Chart.datasets chart = [dataset] /\
    List.length (Chart.labels chart) = 2%nat /\
    List.length (Chart.data dataset) = 2%nat.
Proof.
  destruct (C8_chartData_pointwise plainLabel samplePoints R24H) as (_ & H & _).
  destruct H as (chart & dataset & H1 & H2 & H3 & H4 & _); [discriminate |].
  exists chart, dataset. repeat split; assumption.
Defined.

(** ** The first snapshot fetch *)

Example history_tickets :
  historyFetches (run listed selections)
  = [(1%nat, ("bitcoin", R7D)); (2%nat, ("bitcoin", R24H)); (3%nat, ("ethereum", R24H))]%string.
Proof. reflexivity. Qed.

Lemma withId_valid (params : FilterParams) (i : string) (coin : CryptoData) :
  isValid params (withId i coin) = isValid params coin.
Proof. reflexivity. Qed.

Lemma withId_score (i : string) (coin : CryptoData) :
  calculatePotentialScore (withId i coin) = calculatePotentialScore coin.
Proof. reflexivity. Qed.

Lemma ranked_sample :
  ranked filterParams [assetA; assetB] = [withScore assetA; withScore assetB].
Proof.
  unfold ranked, filtered, assetA, assetB. cbn [filter].
  rewrite !withId_valid, unparsedSupply_valid, overSupplied_valid.
  cbn [map Array_sort fold_right sort_insert].
  rewrite compareScore_key. unfold scoreOrZero. cbn [potentialScore withScore].
  rewrite !withId_score, unparsedSupply_score, overSupplied_score.
  unfold of_Z. cbn [or_zero]. rewrite sub_Fin, gt_Fin. real_tests.
  reflexivity.
Qed.

(** The sample world is the one the component reaches from its mounting when
    the first snapshot response holds the two sample assets. *)
Lemma first_fetch_lists_both :
  step mounted (SnapshotSettled 0 (Fulfilled (JArray [assetA; assetB]))) = listed.
Proof.
  unfold step, mounted, startSnapshotFetch.
  cbn [snapshotFetches app isPending existsb Nat.eqb orb state historyFetches issued filter negb].
  unfold fetchData_settle, filterData, filterData_try, pipeline, try_catch.
  rewrite ranked_sample. reflexivity.
Qed.

(** ** The snapshot fetch cycle *)

Lemma filterData_array (params : FilterParams) (items : list CryptoData) (s : State) :
  filterData params (JArray items) s =
  (ranked params items,
   if Nat.eqb (List.length (ranked params items)) 0
   then setError (Some MSG_NO_MATCH) s else setError None s).
Proof. reflexivity. Qed.

Lemma ranked_nil (params : FilterParams) (items : list CryptoData) :
  filtered params items = [] -> ranked params items = [].
Proof. intros H. unfold ranked. rewrite H. cbn. apply firstn_nil. Qed.

Lemma lowVolume_invalid : isValid filterParams lowVolume = false.
Proof. unfold lowVolume. filter_test. Qed.

Lemma lowVolume_filtered_out : filtered filterParams [lowVolume] = [].
Proof. unfold filtered. cbn [filter]. now rewrite lowVolume_invalid. Qed.

(** C3: when no record survives the filter, [filterData] stores the
    "no matches" message, and the [setError(null)] that follows it in
    [fetchData] clears it: after the cycle the list is empty, [error] is
    [null] and the message is not shown. *)
Theorem C3_no_match_message_cleared
  (params : FilterParams) (items : list CryptoData) (s : State) :
  filtered params items = [] ->
  error (snd (filterData params (JArray items) s)) = Some MSG_NO_MATCH /\
  data (fetchData_settle params (Fulfilled (JArray items)) s) = [] /\
  error (fetchData_settle params (Fulfilled (JArray items)) s) = None /\
  loading (fetchData_settle params (Fulfilled (JArray items)) s) = false.
Proof.
  intros H. apply ranked_nil in H.
  unfold fetchData_settle. rewrite filterData_array, H.
  repeat split.
Qed.

(** C3 at a response whose only record is rejected by the filter. *)
Lemma C3_no_match_witness :
  error (snd (filterData filterParams (JArray [lowVolume]) (fetchData_begin (state listed))))
    = Some MSG_NO_MATCH /\
  data (fetchData_settle filterParams (Fulfilled (JArray [lowVolume]))
          (fetchData_begin (state listed))) = [] /\
  error (fetchData_settle filterParams (Fulfilled (JArray [lowVolume]))
           (fetchData_begin (state listed))) = None.
Proof.
  destruct (C3_no_match_message_cleared filterParams [lowVolume]
              (fetchData_begin (state listed)) lowVolume_filtered_out) as (H1 & H2 & H3 & _).
  repeat split; assumption.
Defined.

(** C10: when the chain inside the [try] of [filterData] throws,
    [filterData] returns the empty list and leaves the state as it was, and
    [fetchData] then stores that empty list in place of the previous ranked
    list, with [error] set to [null]. *)
Theorem C10_exception_drops_batch
  (params : FilterParams) (payload : json_data) (s : State) (e : exn) :
  pipeline params payload = Throw e ->
  filterData params payload s = ([], s) /\
  data (fetchData_settle params (Fulfilled payload) s) = [] /\
  error (fetchData_settle params (Fulfilled payload) s) = None /\
  loading (fetchData_settle params (Fulfilled payload) s) = false.
Proof.
  intros H.
  assert (Hf : filterData params payload s = ([], s)).
  { unfold filterData, filterData_try. now rewrite H. }
  unfold fetchData_settle. rewrite Hf. repeat split.
Qed.

(** C10 at a response whose [data] is not an array, with two assets listed. *)
Lemma C10_exception_witness :
  data (state listed) = [withScore assetA; withScore assetB] /\
  filterData filterParams JOther (state listed) = ([], state listed) /\
  data (fetchData_settle filterParams (Fulfilled JOther) (state listed)) = [] /\
  error (fetchData_settle filterParams (Fulfilled JOther) (state listed)) = None.
Proof.
  destruct (C10_exception_drops_batch filterParams JOther (state listed) (e := TypeError) eq_refl)
    as (H1 & H2 & H3 & _).
  repeat split; assumption.
Defined.

(** ** Overlapping fetches *)

Lemma run_app (w : World) (t1 t2 : list Event) : run w (t1 ++ t2) = run (run w t1) t2.
Proof. apply fold_left_app. Qed.

(** C2 (as stated): after [raceTrace] the selection is ([assetB], 24H), and
    the history is the one fetched for ([assetA], 7D): that fetch, the first
    issued, settled last and overwrote the series of the later selection. *)
Lemma C2_stale_history_overwrites :
  lookupHistory 1 (historyFetches (run listed selections)) = Some ("bitcoin"%string, R7D) /\
  lookupHistory 3 (historyFetches (run listed selections)) = Some ("ethereum"%string, R24H) /\
  option_map id (selectedCrypto (state (run listed raceTrace))) = Some "ethereum"%string /\
  selectedTimeRange (state (run listed raceTrace)) = R24H /\
  historicalData (state (run listed raceTrace)) = pointsA7D /\
  pointsA7D <> pointsB24H.
Proof.
  repeat split. discriminate.
Qed.

(** C2 (amended): when a pending history fetch is fulfilled, its points are
    stored in [historicalData] whatever asset and range are selected at that
    moment, and the selection is left as it is; with overlapping fetches the
    series kept is that of the fetch that settled last. *)
Theorem C2_fulfilled_history_is_stored
  (w : World) (ticket : nat) (key : string * TimeRange) (payload : list HistoricalData) :
  lookupHistory ticket (historyFetches w) = Some key ->
  historicalData (state (step w (HistorySettled ticket (HistoryFulfilled payload)))) = payload /\
  loadingHistory (state (step w (HistorySettled ticket (HistoryFulfilled payload)))) = false /\
  selectedCrypto (state (step w (HistorySettled ticket (HistoryFulfilled payload))))
    = selectedCrypto (state w) /\
  selectedTimeRange (state (step w (HistorySettled ticket (HistoryFulfilled payload))))
    = selectedTimeRange (state w).
Proof.
  intros H. unfold step. rewrite H. repeat split.
Qed.

(** The amended C2 at the last step of [raceTrace]. *)
Lemma C2_fulfilled_history_witness :
  selectedTimeRange
    (state (run listed (selections ++ [HistorySettled 3 (HistoryFulfilled pointsB24H)]))) = R24H /\
  historicalData
    (state (step (run listed (selections ++ [HistorySettled 3 (HistoryFulfilled pointsB24H)]))
                 (HistorySettled 1 (HistoryFulfilled pointsA7D)))) = pointsA7D.
Proof.
  split; [reflexivity |].
  exact (proj1 (C2_fulfilled_history_is_stored
                  (run listed (selections ++ [HistorySettled 3 (HistoryFulfilled pointsB24H)]))
                  1 (key := ("bitcoin"%string, R7D)) pointsA7D eq_refl)).
Defined.

Lemma snapshot_settled (w : World) (ticket : nat) (r : response) :
  isPending ticket (snapshotFetches w) = true ->
  state (step w (SnapshotSettled ticket r)) = fetchData_settle filterParams r (state w).
Proof. intros H. unfold step. now rewrite H. Qed.

(** The timer starts a second fetch while one is pending; the refresh button
    is disabled while [loading] holds. *)
Lemma timer_tick_overlaps :
  snapshotFetches (step mounted TimerTick) = [0; 1]%nat /\
  step mounted RefreshClick = mounted.
Proof. split; reflexivity. Qed.

Lemma other_events_keep_data (w : World) (e : Event) :
  match e with
  | SnapshotSettled _ _ => True
  | _ => data (state (step w e)) = data (state w)
  end.
Proof.
  destruct e as [| | ticket r | index | [range |] | | ticket r]; cbn [step]; try exact I;
    try reflexivity.
  - now destruct (loading (state w)).
  - destruct (loading (state w)); [reflexivity |].
    now destruct (nth_error (data (state w)) index).
  - now destruct (selectedCrypto (state w)).
  - destruct (lookupHistory ticket (historyFetches w)); [| reflexivity].
    now destruct r.
Qed.

Lemma settled_snapshot_is_stored (w : World) (ticket : nat) (r : response) :
  isPending ticket (snapshotFetches w) = true ->
  loading (state (step w (SnapshotSettled ticket r))) = false /\
  match r with
  | Fulfilled (JArray items) =>
      data (state (step w (SnapshotSettled ticket r))) = ranked filterParams items /\
      error (state (step w (SnapshotSettled ticket r))) = None
  | Fulfilled JOther =>
      data (state (step w (SnapshotSettled ticket r))) = [] /\
      error (state (step w (SnapshotSettled ticket r))) = None
  | Rejected =>
      data (state (step w (SnapshotSettled ticket r))) = data (state w) /\
      error (state (step w (SnapshotSettled ticket r))) = Some MSG_FETCH_FAILED
  end.
Proof.
  intros H. rewrite (snapshot_settled _ _ r H).
  unfold fetchData_settle.
  destruct r as [[items |] |]; repeat split.
Qed.

Lemma run_snoc (w : World) (trace : list Event) (e : Event) :
  run w (trace ++ [e]) = step (run w trace) e.
Proof. now rewrite run_app. Qed.

(** C9 (as stated): at the mounting one snapshot fetch is in flight; a tick
    of the timer arriving then starts a second one, and both are pending. *)
Lemma C9_timer_starts_second_fetch :
  snapshotFetches mounted = [0%nat] /\
  loading (state mounted) = true /\
  snapshotFetches (run mounted [TimerTick]) = [0%nat; 1%nat] /\
  List.length (snapshotFetches (run mounted [TimerTick])) = 2%nat.
Proof. repeat split. Qed.

(** C9 (amended): along every sequence of events from the mounting, a tick
    of the timer starts a snapshot fetch whether or not one is in flight, so
    fetches can overlap; a click on the refresh button does nothing while
    [loading] holds and starts a fetch otherwise; when a pending fetch
    settles, the ranked list is the one computed from its response, a
    rejected fetch keeping the previous list and storing the failure
    message; and no other event changes the ranked list.  So the result
    retained is that of the fetch that settled last. *)
Theorem C9_fetches_overlap_last_settled_is_retained
  (trace : list Event) (ticket : nat) (r : response) (e : Event) :
  (snapshotFetches (run mounted (trace ++ [TimerTick]))
     = snapshotFetches (run mounted trace) ++ [issued (run mounted trace)] /\
   loading (state (run mounted (trace ++ [TimerTick]))) = true) /\
  (loading (state (run mounted trace)) = true ->
   run mounted (trace ++ [RefreshClick]) = run mounted trace) /\
  (loading (state (run mounted trace)) = false ->
   snapshotFetches (run mounted (trace ++ [RefreshClick]))
     = snapshotFetches (run mounted trace) ++ [issued (run mounted trace)] /\
   loading (state (run mounted (trace ++ [RefreshClick]))) = true) /\
  (isPending ticket (snapshotFetches (run mounted trace)) = true ->
   loading (state (run mounted (trace ++ [SnapshotSettled ticket r]))) = false /\
   match r with
   | Fulfilled (JArray items) =>
       data (state (run mounted (trace ++ [SnapshotSettled ticket r]))) = ranked filterParams items /\
       error (state (run mounted (trace ++ [SnapshotSettled ticket r]))) = None
   | Fulfilled JOther =>
       data (state (run mounted (trace ++ [SnapshotSettled ticket r]))) = [] /\
       error (state (run mounted (trace ++ [SnapshotSettled ticket r]))) = None
   | Rejected =>
       data (state (run mounted (trace ++ [SnapshotSettled ticket r])))
         = data (state (run mounted trace)) /\
       error (state (run mounted (trace ++ [SnapshotSettled ticket r]))) = Some MSG_FETCH_FAILED
   end) /\
  match e with
  | SnapshotSettled _ _ => True
  | _ => data (state (run mounted (trace ++ [e]))) = data (state (run mounted trace))
  end.
Proof.
  rewrite !run_snoc.
  split; [| split; [| split; [| split]]].
  - split; reflexivity.
  - intros H. cbn [step]. now rewrite H.
  - intros H. cbn [step]. rewrite H. split; reflexivity.
  - intros H. now apply settled_snapshot_is_stored.
  - exact (other_events_keep_data (run mounted trace) e).
Qed.

(** The amended C9 at the mounting: the refresh button does nothing, the
    timer starts a second fetch, and when that one settles its list is the
    one kept. *)
Lemma C9_fetches_overlap_witness :
  run mounted ([] ++ [RefreshClick]) = run mounted [] /\
  snapshotFetches (run mounted ([] ++ [TimerTick])) = [0%nat; 1%nat] /\
  data (state (run mounted ([TimerTick] ++ [SnapshotSettled 1 (Fulfilled (JArray [assetA; assetB]))])))
    = ranked filterParams [assetA; assetB].
Proof.
  split; [| split].
  - exact (proj1 (proj2 (C9_fetches_overlap_last_settled_is_retained
                           [] 0 Rejected TimerTick)) eq_refl).
  - exact (proj1 (proj1 (C9_fetches_overlap_last_settled_is_retained
                           [] 0 Rejected TimerTick))).
  - exact (proj1 (proj2 (proj1 (proj2 (proj2 (proj2
             (C9_fetches_overlap_last_settled_is_retained [TimerTick] 1
                (Fulfilled (JArray [assetA; assetB])) TimerTick)))) eq_refl))).
Defined.

(** ** The range of the score *)

Lemma ln_monotone (x y : R) : (0 < x)%R -> (x <= y)%R -> (ln x <= ln y)%R.
Proof.
  intros Hx [Hlt | ->]; [| lra].
  left. now apply ln_increasing.
Qed.

Lemma marketCapScore_range (marketCap : number) :
  exists c : R, marketCapScore marketCap = Fin c /\ (0 <= c <= 30)%R.
Proof.
  unfold marketCapScore.
  destruct (ge marketCap (of_Z 1000000) && le marketCap (of_Z 5000000000)) eqn:E;
    [| exists 0%R; split; [reflexivity | lra]].
  apply andb_true_iff in E. destruct E as [Hlo Hhi].
  destruct marketCap as [| | | m]; try discriminate.
  unfold of_Z in *. rewrite ge_Fin in Hlo. rewrite le_Fin in Hhi.
  apply Rleb_spec in Hlo. apply Rleb_spec in Hhi.
  pose proof ln_band_pos as Hband.
  assert (ln 1000000 <= ln m)%R by (apply ln_monotone; lra).
  assert (ln m <= ln 5000000000)%R by (apply ln_monotone; lra).
  js_eval. eexists. split; [reflexivity |].
  set (q := ((ln m - ln 1000000) / (ln 5000000000 - ln 1000000))%R).
  assert (0 <= q <= 1)%R.
  { unfold q. split.
    - apply Rle_mult_inv_pos; lra.
    - apply Rmult_le_reg_r with (ln 5000000000 - ln 1000000)%R; [lra |].
      unfold Rdiv. rewrite Rmult_assoc, Rinv_l by lra. lra. }
  lra.
Qed.

Lemma volumeScore_range (volume : number) (m : R) :
  (0 < m)%R -> exists v : R, volumeScore volume (Fin m) = Fin v /\ (0 <= v <= 25)%R.
Proof.
  intros Hm. unfold volumeScore.
  destruct volume as [| | | x].
  - exists 0%R. split; [reflexivity | lra].
  - exists 25%R. split; [| lra].
    unfold of_Z, gt. cbn [lt div]. rewrite Rltb_false by lra.
    cbn [mul]. unfold signed_inf. rewrite Rltb_true by lra. reflexivity.
  - exists 0%R. split; [reflexivity | lra].
  - unfold of_Z. rewrite gt_Fin.
    destruct (Rltb 0 x) eqn:E; [| exists 0%R; split; [reflexivity | lra]].
    apply Rltb_spec in E.
    rewrite div_Fin by lra. rewrite mul_Fin, Math_min_Fin.
    assert (0 <= x / m * 100)%R.
    { apply Rmult_le_pos; [| lra]. apply Rle_mult_inv_pos; lra. }
    destruct (Rleb 25 (x / m * 100)) eqn:E'.
    + exists 25%R. split; [reflexivity | lra].
    + eexists. split; [reflexivity |].
      unfold Rleb in E'. destruct (Rle_dec 25 (x / m * 100)); [discriminate | lra].
Qed.

Lemma supplyScore_range (coin : CryptoData) :
  supplyWithinCap coin ->
  exists g : R,
    supplyScore (parseFloat (supply coin)) (parseFloat (maxSupply coin)) = Fin g /\
    (0 <= g <= 20)%R.
Proof.
  intros [H | [H | (s & m & Hs & Hm & Hle & _)]].
  - exists 0%R. split; [apply supplyScore_NaN; now left | lra].
  - exists 0%R. split; [apply supplyScore_NaN; now right | lra].
  - rewrite Hs, Hm. unfold supplyScore, of_Z. cbn [isNaN negb andb]. rewrite gt_Fin.
    destruct (Rltb 0 m) eqn:E; [| exists 0%R; split; [reflexivity | lra]].
    apply Rltb_spec in E.
    rewrite div_Fin by lra. rewrite sub_Fin, mul_Fin.
    eexists. split; [reflexivity |].
    assert (0 <= s / m <= 1)%R.
    { split.
      - apply Rle_mult_inv_pos; lra.
      - apply Rmult_le_reg_r with m; [lra |].
        unfold Rdiv. rewrite Rmult_assoc, Rinv_l by lra. lra. }
    lra.
Qed.

Lemma trendScore_range (changePercent : number) :
  exists t : R, trendScore changePercent = Fin t /\ (0 <= t <= 25)%R.
Proof.
  unfold trendScore, of_Z.
  destruct changePercent as [| | | x]; cbn [isNaN negb Math_max Math_min le].
  - exists 0%R. split; [reflexivity | lra].
  - exists 25%R. split; [reflexivity | lra].
  - real_tests. exists 0%R. split; [reflexivity | lra].
  - unfold Rleb.
    destruct (Rle_dec 0 x); cbn [le]; unfold Rleb;
      [destruct (Rle_dec 25 x) | destruct (Rle_dec 25 0)];
      eexists; (split; [reflexivity | lra]).
Qed.

Lemma Math_round_range (x : R) (lo hi : Z) :
  (IZR lo <= x <= IZR hi)%R ->
  exists z : Z, Math_round (Fin x) = of_Z z /\ (lo <= z <= hi)%Z.
Proof.
  intros [Hlo Hhi]. exists (Zfloor (x + / 2)). split; [reflexivity |].
  pose proof (Zfloor_bound (x + / 2)) as [Hb1 Hb2].
  split.
  - apply Zfloor_lub. lra.
  - apply Z.lt_succ_r. apply lt_IZR. rewrite succ_IZR. lra.
Qed.

Lemma scenario1_valid : isValid filterParams scenario1 = true.
Proof. unfold scenario1. filter_test. Qed.

(** X1: for a record that passes the filter of the component and whose supply
    and maximum supply are finite numbers with 0 <= supply <= maxSupply <=
    1e308 (or one of them does not parse), the score is an integer between 0
    and 100. *)
Theorem score_in_range_within_cap (coin : CryptoData) :
  isValid filterParams coin = true ->
  supplyWithinCap coin ->
  exists z : Z, calculatePotentialScore coin = of_Z z /\ (0 <= z <= 100)%Z.
Proof.
  intros Hvalid Hsupply.
  apply isValid_spec in Hvalid.
  destruct Hvalid as (_ & _ & _ & _ & Hlo & Hhi).
  unfold filterParams in Hlo, Hhi. cbn [minMarketCap maxMarketCap] in Hlo, Hhi.
  unfold calculatePotentialScore, calculatePotentialScore_try, try_catch.
  destruct (parseFloat (marketCapUsd coin)) as [| | | m] eqn:Em; try discriminate.
  unfold of_Z in Hlo. rewrite ge_Fin in Hlo. apply Rleb_spec in Hlo.
  destruct (marketCapScore_range (Fin m)) as (c & -> & Hc).
  destruct (volumeScore_range (parseFloat (volumeUsd24Hr coin)) (m := m)) as (v & -> & Hv);
    [lra |].
  destruct (supplyScore_range Hsupply) as (g & -> & Hg).
  destruct (trendScore_range (parseFloat (changePercent24Hr coin))) as (t & -> & Ht).
  rewrite !add_Fin.
  apply Math_round_range. lra.
Qed.

(** X1 at scenario 1. *)
Lemma score_in_range_witness :
  exists z : Z, calculatePotentialScore scenario1 = of_Z z /\ (0 <= z <= 100)%Z.
Proof.
  apply (@score_in_range_within_cap scenario1 scenario1_valid).
  right. right. exists 500000%R, 1000000%R.
  unfold scenario1, snapshot. cbn [supply maxSupply]. parse_strings.
  split; [reflexivity | split; [reflexivity | split; [lra |]]].
  apply Rle_trans with (10 ^ 6)%R; [lra |].
  apply Rle_pow; [lra |]. apply Nat.leb_le. reflexivity.
Defined.

(** The trend sub-score does not decrease when the 24 hour change
    increases. *)
Lemma trendScore_monotone (x y : number) :
  le x y = true -> le (trendScore x) (trendScore y) = true.
Proof.
  intros H. unfold trendScore, of_Z.
  destruct x as [| | | a], y as [| | | b]; try discriminate;
    cbn [isNaN negb Math_max Math_min le] in *;
    unfold Rleb in *;
    repeat match goal with
      | |- context [Rle_dec ?p ?q] => destruct (Rle_dec p q); cbn [le]; unfold Rleb
      | H : context [Rle_dec ?p ?q] |- _ => destruct (Rle_dec p q)
      end;
    try reflexivity; try discriminate; exfalso; lra.
Qed.

Lemma Math_round_monotone (x y : R) :
  (x <= y)%R -> le (Math_round (Fin x)) (Math_round (Fin y)) = true.
Proof.
  intros H. cbn [Math_round]. rewrite le_Fin. apply Rleb_true.
  apply IZR_le, Zfloor_le. lra.
Qed.

(** X2: with the other fields fixed, the score does not decrease when the
    24 hour change increases, as long as the score is a number. *)
Theorem score_monotone_in_change (coin : CryptoData) (change1 change2 : string) :
  le (parseFloat change1) (parseFloat change2) = true ->
  isNaN (calculatePotentialScore (withChange change1 coin)) = false ->
  le (calculatePotentialScore (withChange change1 coin))
     (calculatePotentialScore (withChange change2 coin)) = true.
Proof.
  intros Hle Hnum.
  pose proof (trendScore_monotone _ _ Hle) as Ht.
  unfold calculatePotentialScore, calculatePotentialScore_try, try_catch in *.
  cbn [withChange marketCapUsd volumeUsd24Hr changePercent24Hr supply maxSupply] in *.
  destruct (trendScore_range (parseFloat change1)) as (t1 & E1 & _).
  destruct (trendScore_range (parseFloat change2)) as (t2 & E2 & _).
  rewrite E1, E2 in *. rewrite le_Fin in Ht. apply Rleb_spec in Ht.
  destruct (add (add (marketCapScore (parseFloat (marketCapUsd coin)))
                     (volumeScore (parseFloat (volumeUsd24Hr coin))
                                  (parseFloat (marketCapUsd coin))))
                (supplyScore (parseFloat (supply coin)) (parseFloat (maxSupply coin))))
    as [| | | s]; try discriminate; try reflexivity.
  rewrite !add_Fin. apply Math_round_monotone. lra.
Qed.

(** X2 at scenario 1, for the changes 10 and 20. *)
Lemma score_monotone_witness :
  le (calculatePotentialScore (withChange "10" scenario1))
     (calculatePotentialScore (withChange "20" scenario1)) = true.
Proof.
  apply (score_monotone_in_change scenario1 "10" "20").
  - parse_strings. unfold of_Z. rewrite le_Fin. apply Rleb_true. lra.
  - change (withChange "10" scenario1) with scenario1.
    now rewrite scenario1_score.
Defined.


Unset Implicit Arguments.

(** ** The ranked list as the best of the survivors *)

Lemma StronglySorted_app_cross (A : Type) (R : A -> A -> Prop) (l1 l2 : list A) :
  StronglySorted R (l1 ++ l2) -> forall a b, In a l1 -> In b l2 -> R a b.
Proof.
  induction l1 as [| x l1 IH]; cbn [app]; intros H a b Ha Hb; [contradiction |].
  inversion H as [| ? ? Hs Hf]; subst.
  destruct Ha as [<- | Ha].
  - apply (proj1 (Forall_forall _ _) Hf). apply in_or_app. now right.
  - now apply IH.
Qed.

Lemma scored_sorted (params : FilterParams) (items : list CryptoData) :
  StronglySorted (descendingBy scoreOrZero)
    (Array_sort compareScore (map withScore (filtered params items))).
Proof. apply Array_sort_sorted; [exact scoreOrZero_not_NaN | exact compareScore_key]. Qed.

Lemma ranked_overflow (params : FilterParams) (items : list CryptoData) :
  ranked params items ++ overflow params items =
  Array_sort compareScore (map withScore (filtered params items)).
Proof. apply firstn_skipn. Qed.

(** X6: the ranked list and the records the slice cuts off are together a
    permutation of the scored survivors of the filter, and no record cut off
    has a sort key above that of a record kept: the list holds the
    [maxResults] best survivors. *)
Theorem ranked_keeps_the_best (params : FilterParams) (items : list CryptoData) :
  Permutation (ranked params items ++ overflow params items)
              (map withScore (filtered params items)) /\
  forall kept cut,
    In kept (ranked params items) -> In cut (overflow params items) ->
    le (scoreOrZero cut) (scoreOrZero kept) = true.
Proof.
  split.
  - rewrite ranked_overflow. apply Array_sort_perm.
  - intros kept cut Hk Hc.
    pose proof (scored_sorted params items) as Hs.
    rewrite <- ranked_overflow in Hs.
    exact (StronglySorted_app_cross _ _ _ _ Hs _ _ Hk Hc).
Qed.

(** X7: the ranked list has exactly min(maxResults, number of survivors)
    entries: a survivor is left out only when the list is full. *)
Theorem ranked_length (params : FilterParams) (items : list CryptoData) :
  List.length (ranked params items)
  = Nat.min (maxResults params) (List.length (filtered params items)).
Proof.
  unfold ranked. rewrite length_firstn.
  now rewrite (Permutation_length (Array_sort_perm _ _)), length_map.
Qed.

Lemma withScore_valid (params : FilterParams) (coin : CryptoData) :
  isValid params (withScore coin) = isValid params coin.
Proof. reflexivity. Qed.

Lemma withScore_score (coin : CryptoData) :
  calculatePotentialScore (withScore coin) = calculatePotentialScore coin.
Proof. reflexivity. Qed.

Lemma ranked_records (params : FilterParams) (items : list CryptoData) (coin : CryptoData) :
  In coin (ranked params items) -> rankedRecord params coin.
Proof.
  intros H. apply ranked_from_filtered in H. destruct H as (c & Hin & ->).
  unfold filtered in Hin. apply filter_In in Hin. destruct Hin as [_ Hv].
  split; [now rewrite withScore_valid | reflexivity].
Qed.

(** X8: every record of the ranked list is a record of the input with the
    score added: it passes the filter, and the score it carries is the score
    of its own fields. *)
Theorem ranked_records_scored (params : FilterParams) (items : list CryptoData)
  (coin : CryptoData) :
  In coin (ranked params items) ->
  rankedRecord params coin /\
  exists source, In source items /\ coin = withScore source.
Proof.
  intros H. split; [exact (ranked_records _ _ _ H) |].
  apply ranked_from_filtered in H. destruct H as (c & Hin & ->).
  exists c. split; [| reflexivity].
  unfold filtered in Hin. now apply filter_In in Hin.
Qed.

(** X8 at the sample response. *)
Lemma ranked_records_witness :
  rankedRecord filterParams (withScore assetA) /\
  exists source, In source [assetA; assetB] /\ withScore assetA = withScore source.
Proof.
  apply (ranked_records_scored filterParams [assetA; assetB] (withScore assetA)).
  rewrite ranked_sample. now left.
Defined.

(** ** Ranking a ranked list *)

Lemma filter_all (A : Type) (p : A -> bool) (l : list A) :
  (forall x, In x l -> p x = true) -> filter p l = l.
Proof.
  induction l as [| x l IH]; intros H; cbn [filter]; [reflexivity |].
  rewrite (H x (or_introl eq_refl)). f_equal. apply IH.
  intros y Hy. apply H. now right.
Qed.

Lemma map_fixed (A : Type) (f : A -> A) (l : list A) :
  (forall x, In x l -> f x = x) -> map f l = l.
Proof.
  induction l as [| x l IH]; intros H; cbn [map]; [reflexivity |].
  rewrite (H x (or_introl eq_refl)). f_equal. apply IH.
  intros y Hy. apply H. now right.
Qed.

Section SortedInput.
Variable A : Type.
Variable key : A -> number.
Variable compareFn : A -> A -> number.
Hypothesis key_not_NaN : forall a, isNaN (key a) = false.
Hypothesis compareFn_key : forall a b, compareFn a b = sub (key b) (key a).

(** The sort leaves a list that already descends by the key as it is. *)
Lemma Array_sort_sorted_input (l : list A) :
  StronglySorted (descendingBy key) l -> Array_sort compareFn l = l.
Proof.
  induction 1 as [| x l Hl IH Hx]; cbn [Array_sort fold_right]; [reflexivity |].
  fold (Array_sort compareFn l). rewrite IH.
  destruct l as [| y l']; cbn [sort_insert]; [reflexivity |].
  rewrite (compareFn_positive key compareFn key_not_NaN compareFn_key).
  inversion Hx as [| ? ? Hxy _]; subst.
  unfold descendingBy in Hxy. now rewrite (le_not_lt _ _ Hxy).
Qed.
End SortedInput.

(** X9: ranking is idempotent: the chain of [filterData] applied to its own
    result gives that result again. *)
Theorem ranked_idempotent (params : FilterParams) (items : list CryptoData) :
  ranked params (ranked params items) = ranked params items.
Proof.
  set (L := ranked params items).
  assert (Hrec : forall c, In c L -> rankedRecord params c)
    by (intros c Hc; exact (ranked_records _ _ _ Hc)).
  unfold ranked at 1.
  assert (Hf : filtered params L = L).
  { unfold filtered. apply filter_all. intros c Hc. exact (proj1 (Hrec c Hc)). }
  assert (Hm : map withScore L = L).
  { apply map_fixed. intros c Hc.
    apply ranked_from_filtered in Hc. destruct Hc as (c0 & _ & ->). reflexivity. }
  rewrite Hf, Hm.
  rewrite (Array_sort_sorted_input _ scoreOrZero compareScore
             scoreOrZero_not_NaN compareScore_key).
  - apply firstn_all2. unfold L, ranked. apply firstn_le_length.
  - unfold L, ranked. apply StronglySorted_firstn. apply scored_sorted.
Qed.

Lemma firstn_firstn_le (A : Type) (n m : nat) (l : list A) :
  (n <= m)%nat -> firstn n (firstn m l) = firstn n l.
Proof. intros H. rewrite firstn_firstn. now rewrite Nat.min_l. Qed.

(** X10: with a smaller [maxResults] and the same thresholds, the ranked list
    is the beginning of the ranked list for the larger cap. *)
Theorem ranked_prefix (params : FilterParams) (items : list CryptoData) (n : nat) :
  (n <= maxResults params)%nat ->
  ranked (withMaxResults n params) items = firstn n (ranked params items).
Proof.
  intros H. unfold ranked at 2. rewrite firstn_firstn_le by exact H.
  reflexivity.
Qed.

(** X10 at the sample response, with a cap of one. *)
Lemma ranked_prefix_witness :
  ranked (withMaxResults 1 filterParams) [assetA; assetB] = [withScore assetA].
Proof.
  rewrite (ranked_prefix filterParams [assetA; assetB] 1).
  - now rewrite ranked_sample.
  - cbn [maxResults filterParams]. apply Nat.lt_0_succ.
Defined.

(** ** The shape of the sub-scores *)

Lemma marketCapScore_band (m : R) :
  (1000000 <= m <= 5000000000)%R ->
  marketCapScore (Fin m) =
  Fin (30 * (1 - (ln m - ln 1000000) / (ln 5000000000 - ln 1000000))).
Proof.
  intros [Hlo Hhi]. pose proof ln_band_pos as Hband.
  unfold marketCapScore. js_eval. reflexivity.
Qed.

(** X3: within the band [1e6, 5e9] the capitalisation score decreases as
    the market capitalisation grows, from 30 at the floor to 0 at the
    ceiling; outside the band it is 0. *)
Theorem marketCapScore_antitone (a b : R) :
  (1000000 <= a)%R -> (a <= b)%R -> (b <= 5000000000)%R ->
  le (marketCapScore (Fin b)) (marketCapScore (Fin a)) = true /\
  le (marketCapScore (Fin a)) (marketCapScore (of_Z 1000000)) = true /\
  le (marketCapScore (of_Z 5000000000)) (marketCapScore (Fin b)) = true /\
  marketCapScore (of_Z 1000000) = of_Z 30 /\
  marketCapScore (of_Z 5000000000) = of_Z 0 /\
  forall x : R, (x < 1000000 \/ 5000000000 < x)%R -> marketCapScore (Fin x) = of_Z 0.
Proof.
  intros Ha Hab Hb. pose proof ln_band_pos as Hband.
  assert (Hmono : forall x y : R,
             (1000000 <= x)%R -> (x <= y)%R -> (y <= 5000000000)%R ->
             le (marketCapScore (Fin y)) (marketCapScore (Fin x)) = true).
  { intros x y Hx Hxy Hy.
    rewrite !marketCapScore_band by lra. rewrite le_Fin. apply Rleb_true.
    assert (ln x <= ln y)%R by (apply ln_monotone; lra).
    assert (Hq : ((ln x - ln 1000000) / (ln 5000000000 - ln 1000000)
                  <= (ln y - ln 1000000) / (ln 5000000000 - ln 1000000))%R).
    { unfold Rdiv. apply Rmult_le_compat_r; [| lra].
      left. apply Rinv_0_lt_compat. lra. }
    lra. }
  split; [now apply Hmono |].
  split; [apply Hmono; lra |].
  split; [apply Hmono; lra |].
  split; [exact marketCapScore_floor |].
  split; [exact marketCapScore_ceiling |].
  intros x Hx. unfold marketCapScore, of_Z. rewrite ge_Fin, le_Fin.
  destruct Hx as [Hx | Hx].
  - now rewrite (@Rleb_false 1000000 x) by lra.
  - rewrite (@Rleb_false x 5000000000) by lra. now rewrite andb_false_r.
Qed.

(** X3 between the market capitalisations 2e6 and 2e9. *)
Lemma marketCapScore_antitone_witness :
  le (marketCapScore (Fin 2000000000)) (marketCapScore (Fin 2000000)) = true.
Proof.
  apply (marketCapScore_antitone 2000000 2000000000); lra.
Defined.

Lemma volumeScore_positive (v m : R) :
  (0 < v)%R -> (0 < m)%R ->
  volumeScore (Fin v) (Fin m) = if Rleb 25 (v / m * 100) then Fin 25 else Fin (v / m * 100).
Proof.
  intros Hv Hm. unfold volumeScore, of_Z. rewrite gt_Fin, Rltb_true by lra.
  rewrite div_Fin by lra. now rewrite mul_Fin, Math_min_Fin.
Qed.

(** X4: for a positive market capitalisation and positive volumes, the
    volume score lies between 0 and 25, does not decrease when the volume
    grows, and is 25 from a turnover of a quarter of the market
    capitalisation on. *)
Theorem volumeScore_monotone_capped (v1 v2 m : R) :
  (0 < v1)%R -> (v1 <= v2)%R -> (0 < m)%R ->
  le (volumeScore (Fin v1) (Fin m)) (volumeScore (Fin v2) (Fin m)) = true /\
  le (of_Z 0) (volumeScore (Fin v1) (Fin m)) = true /\
  le (volumeScore (Fin v2) (Fin m)) (of_Z 25) = true /\
  ((m <= 4 * v2)%R -> volumeScore (Fin v2) (Fin m) = of_Z 25).
Proof.
  intros Hv1 Hv Hm.
  assert (Hdiv : forall v : R, (v / m * m = v)%R) by (intros v; field; lra).
  assert (Hpos : (0 < v1 / m)%R) by (apply Rdiv_lt_0_compat; lra).
  assert (Hmono : (v1 / m <= v2 / m)%R).
  { unfold Rdiv. apply Rmult_le_compat_r; [| exact Hv].
    left. apply Rinv_0_lt_compat. exact Hm. }
  rewrite !volumeScore_positive by lra. unfold of_Z.
  split; [| split; [| split]].
  - unfold Rleb.
    destruct (Rle_dec 25 (v1 / m * 100)), (Rle_dec 25 (v2 / m * 100));
      rewrite le_Fin; apply Rleb_true; lra.
  - unfold Rleb. destruct (Rle_dec 25 (v1 / m * 100)); rewrite le_Fin; apply Rleb_true; lra.
  - unfold Rleb. destruct (Rle_dec 25 (v2 / m * 100)); rewrite le_Fin; apply Rleb_true; lra.
  - intros H. rewrite Rleb_true; [reflexivity |].
    pose proof (Hdiv v2). nra.
Qed.

(** X4 at turnovers of a tenth and of a half of the market capitalisation. *)
Lemma volumeScore_monotone_witness :
  le (volumeScore (Fin 200000000) (Fin 2000000000))
     (volumeScore (Fin 1000000000) (Fin 2000000000)) = true /\
  volumeScore (Fin 1000000000) (Fin 2000000000) = of_Z 25.
Proof.
  destruct (volumeScore_monotone_capped 200000000 1000000000 2000000000
              ltac:(lra) ltac:(lra) ltac:(lra)) as (H1 & _ & _ & H4).
  split; [exact H1 | apply H4; lra].
Defined.

(** X5: when the market capitalisation does not parse and the volume is
    positive, the score is NaN, not the 0 of the [catch]; the filter rejects
    such a record whatever the thresholds, and the comparator of the sort
    would count its score as 0. *)
Theorem unparsed_marketCap_scores_NaN (params : FilterParams) (coin : CryptoData) :
  isNaN (parseFloat (marketCapUsd coin)) = true ->
  gt (parseFloat (volumeUsd24Hr coin)) (of_Z 0) = true ->
  calculatePotentialScore coin = NaN /\
  isValid params coin = false /\
  scoreOrZero (withScore coin) = of_Z 0.
Proof.
  intros Hmc Hvol.
  assert (Hs : calculatePotentialScore coin = NaN).
  { unfold calculatePotentialScore, calculatePotentialScore_try, try_catch.
    destruct (parseFloat (marketCapUsd coin)); try discriminate.
    unfold volumeScore. rewrite Hvol.
    destruct (parseFloat (volumeUsd24Hr coin)); try discriminate; reflexivity. }
  split; [exact Hs | split].
  - unfold isValid, isValid_try, try_catch. rewrite Hmc.
    cbn [negb]. now rewrite !andb_false_r.
  - unfold scoreOrZero. cbn [withScore potentialScore]. now rewrite Hs.
Qed.

(** X5 at [unparsedMarketCap]. *)
Lemma unparsed_marketCap_witness :
  calculatePotentialScore unparsedMarketCap = NaN /\
  isValid filterParams unparsedMarketCap = false /\
  scoreOrZero (withScore unparsedMarketCap) = of_Z 0.
Proof.
  apply (unparsed_marketCap_scores_NaN filterParams unparsedMarketCap).
  - reflexivity.
  - unfold unparsedMarketCap, snapshot. cbn [volumeUsd24Hr]. parse_strings.
    unfold of_Z. rewrite gt_Fin. apply Rltb_true. lra.
Defined.

(** ** Invariants of the potential list *)

Lemma run_invariant (P : World -> Prop) :
  (forall w e, P w -> P (step w e)) ->
  forall trace w, P w -> P (run w trace).
Proof.
  intros Hstep trace. induction trace as [| e trace IH]; intros w Hw; [exact Hw |].
  cbn [run fold_left]. apply IH. now apply Hstep.
Qed.

Lemma other_events_keep_error (w : World) (e : Event) :
  match e with
  | SnapshotSettled _ _ => True
  | _ => error (state (step w e)) = error (state w)
  end.
Proof.
  destruct e as [| | ticket r | index | [range |] | | ticket r]; cbn [step]; try exact I;
    try reflexivity.
  - now destruct (loading (state w)).
  - destruct (loading (state w)); [reflexivity |].
    now destruct (nth_error (data (state w)) index).
  - now destruct (selectedCrypto (state w)).
  - destruct (lookupHistory ticket (historyFetches w)); [| reflexivity].
    now destruct r.
Qed.

Lemma settled_error (w : World) (ticket : nat) (r : response) :
  error (state (step w (SnapshotSettled ticket r))) = error (state w) \/
  error (state (step w (SnapshotSettled ticket r))) = None \/
  error (state (step w (SnapshotSettled ticket r))) = Some MSG_FETCH_FAILED.
Proof.
  cbn [step]. destruct (isPending ticket (snapshotFetches w)); [| now left].
  right. destruct r as [payload |]; [left | right]; cbn [state].
  - unfold fetchData_settle. now destruct (filterData filterParams payload (state w)).
  - reflexivity.
Qed.

(** X11: along every sequence of events from the mounting, [error] is
    [null] or the message of a failed fetch; the message "no matches" that
    [filterData] stores is never the one the component is left with. *)
Theorem no_match_message_never_kept (trace : list Event) :
  (error (state (run mounted trace)) = None \/
   error (state (run mounted trace)) = Some MSG_FETCH_FAILED) /\
  error (state (run mounted trace)) <> Some MSG_NO_MATCH.
Proof.
  assert (H : error (state (run mounted trace)) = None \/
              error (state (run mounted trace)) = Some MSG_FETCH_FAILED).
  { apply (run_invariant
             (fun w => error (state w) = None \/ error (state w) = Some MSG_FETCH_FAILED)).
    - intros w e Hw.
      destruct e as [| | ticket r | index | newRange | | ticket r];
        try (match goal with
             | |- context [step w ?e] => rewrite (other_events_keep_error w e)
             end; exact Hw).
      destruct (settled_error w ticket r) as [-> | [-> | ->]]; auto.
    - now left. }
  split; [exact H |].
  destruct H as [-> | ->]; discriminate.
Qed.

Lemma other_events_keep_selection (w : World) (e : Event) :
  match e with
  | CryptoClick _ | DialogClose => True
  | _ => selectedCrypto (state (step w e)) = selectedCrypto (state w)
  end.
Proof.
  destruct e as [| | ticket r | index | [range |] | | ticket r]; cbn [step]; try exact I;
    try reflexivity.
  - now destruct (loading (state w)).
  - destruct (isPending ticket (snapshotFetches w)); [| reflexivity].
    cbn [state]. unfold fetchData_settle. destruct r as [payload |]; [| reflexivity].
    unfold filterData, filterData_try. destruct (pipeline filterParams payload); cbn [try_catch].
    + destruct (Nat.eqb (List.length a) 0); reflexivity.
    + reflexivity.
  - destruct (selectedCrypto (state w)) eqn:E; cbn; now rewrite ?E.
  - destruct (lookupHistory ticket (historyFetches w)); [| reflexivity].
    now destruct r.
Qed.

Lemma settled_data (w : World) (ticket : nat) (r : response) :
  data (state (step w (SnapshotSettled ticket r))) = data (state w) \/
  data (state (step w (SnapshotSettled ticket r))) = [] \/
  exists items, data (state (step w (SnapshotSettled ticket r))) = ranked filterParams items.
Proof.
  cbn [step]. destruct (isPending ticket (snapshotFetches w)); [| now left].
  cbn [state]. unfold fetchData_settle.
  destruct r as [[items |] |].
  - right. right. now exists items.
  - right. now left.
  - now left.
Qed.

Lemma ranked_list_invariant (items : list CryptoData) :
  (List.length (ranked filterParams items) <= maxResults filterParams)%nat /\
  StronglySorted (descendingBy scoreOrZero) (ranked filterParams items) /\
  (forall coin, In coin (ranked filterParams items) -> rankedRecord filterParams coin).
Proof.
  split; [unfold ranked; apply firstn_le_length |].
  split; [unfold ranked; apply StronglySorted_firstn, scored_sorted |].
  intros coin. apply ranked_records.
Qed.

Lemma step_listInvariant (w : World) (e : Event) :
  listInvariant (state w) -> listInvariant (state (step w e)).
Proof.
  intros (Hlen & Hsort & Hrec & Hsel).
  pose proof (other_events_keep_data w e) as Hd.
  pose proof (other_events_keep_selection w e) as Hs.
  unfold listInvariant.
  destruct e as [| | ticket r | index | newRange | | ticket r]; cbn beta iota in Hd, Hs.
  1, 2, 5, 7: rewrite Hd, Hs; split; [| split; [| split]]; assumption.
  - rewrite Hs.
    destruct (settled_data w ticket r) as [-> | [-> | (items & ->)]].
    + split; [| split; [| split]]; assumption.
    + split; [apply Nat.le_0_l | split; [constructor | split; [contradiction | exact Hsel]]].
    + destruct (ranked_list_invariant items) as (H1 & H2 & H3).
      split; [| split; [| split]]; assumption.
  - rewrite Hd.
    split; [| split; [| split]]; try assumption.
    cbn [step]. destruct (loading (state w)); [exact Hsel |].
    destruct (nth_error (data (state w)) index) as [crypto |] eqn:E; [| exact Hsel].
    cbn. intros coin [= <-]. apply Hrec. eapply nth_error_In. exact E.
  - rewrite Hd.
    split; [| split; [| split]]; try assumption. cbn. discriminate.
Qed.

(** X12: along every sequence of events from the mounting, the list the
    component shows has at most 100 entries and descends by the sort key,
    and every listed record, as well as the selected asset, passes the
    filter of the component and carries the score of its own fields. *)
Theorem listed_records_stay_ranked (trace : list Event) :
  listInvariant (state (run mounted trace)).
Proof.
  apply (run_invariant (fun w => listInvariant (state w))).
  - exact step_listInvariant.
  - split; [apply Nat.le_0_l | split; [constructor | split]].
    + intros coin [].
    + cbn. discriminate.
Qed.

(** ** The history series between fetches *)

Lemma other_events_keep_history (w : World) (e : Event) :
  match e with
  | HistorySettled _ (HistoryFulfilled _) => True
  | _ => historicalData (state (step w e)) = historicalData (state w)
  end.
Proof.
  destruct e as [| | ticket r | index | [range |] | | ticket [payload |]]; cbn [step];
    try exact I; try reflexivity.
  - now destruct (loading (state w)).
  - destruct (isPending ticket (snapshotFetches w)); [| reflexivity].
    cbn [state]. unfold fetchData_settle. destruct r as [payload |]; [| reflexivity].
    unfold filterData, filterData_try. destruct (pipeline filterParams payload); cbn [try_catch].
    + destruct (Nat.eqb (List.length a) 0); reflexivity.
    + reflexivity.
  - destruct (loading (state w)); [reflexivity |].
    now destruct (nth_error (data (state w)) index).
  - now destruct (selectedCrypto (state w)).
  - now destruct (lookupHistory ticket (historyFetches w)).
Qed.

Lemma lookupHistory_last (ticket : nat) (key : string * TimeRange)
  (l : list (nat * (string * TimeRange))) :
  lookupHistory ticket (l ++ [(ticket, key)]) <> None.
Proof.
  unfold lookupHistory.
  induction l as [| [t k] l IH]; cbn [app find fst].
  - rewrite Nat.eqb_refl. discriminate.
  - destruct (Nat.eqb ticket t); [discriminate | exact IH].
Qed.

(** X13: the history series is replaced only when a history fetch is
    fulfilled: selecting an asset or a range, closing the dialog, a refresh
    and a rejected fetch all leave it as it is.  So when an asset is selected
    and its fetch is rejected, the component is left with that asset
    selected, the spinner off, and the series it held before. *)
Theorem history_kept_until_fulfilled (w : World) (e : Event) (index : nat) (crypto : CryptoData) :
  match e with
  | HistorySettled _ (HistoryFulfilled _) => True
  | _ => historicalData (state (step w e)) = historicalData (state w)
  end /\
  (loading (state w) = false ->
   nth_error (data (state w)) index = Some crypto ->
   selectedCrypto
     (state (run w [CryptoClick index; HistorySettled (issued w) HistoryRejected]))
     = Some crypto /\
   loadingHistory
     (state (run w [CryptoClick index; HistorySettled (issued w) HistoryRejected]))
     = false /\
   historicalData
     (state (run w [CryptoClick index; HistorySettled (issued w) HistoryRejected]))
     = historicalData (state w)).
Proof.
  split; [apply other_events_keep_history |].
  intros Hl Hn. cbn [run fold_left].
  assert (E : step w (CryptoClick index)
              = startHistoryFetch (id crypto) (selectedTimeRange (state w))
                  (withState (setSelectedCrypto (Some crypto)) w)).
  { cbn [step]. now rewrite Hl, Hn. }
  rewrite E. cbn [step].
  pose proof (lookupHistory_last (issued w) (id crypto, selectedTimeRange (state w))
                (historyFetches w)) as Hlook.
  cbn [startHistoryFetch withState historyFetches issued state] in *.
  destruct (lookupHistory (issued w)
              (historyFetches w ++ [(issued w, (id crypto, selectedTimeRange (state w)))]));
    [| contradiction].
  repeat split.
Qed.

(** X13 when the second listed asset is selected after the history of the
    first has been loaded. *)
Lemma history_kept_witness :
  historicalData
    (state (run (run listed [CryptoClick 0; HistorySettled 1 (HistoryFulfilled pointsA7D);
                             DialogClose])
              [CryptoClick 1; HistorySettled 2 HistoryRejected]))
  = pointsA7D.
Proof.
  exact (proj2 (proj2 (proj2 (history_kept_until_fulfilled
           (run listed [CryptoClick 0; HistorySettled 1 (HistoryFulfilled pointsA7D); DialogClose])
           DialogClose 1 (withScore assetB)) eq_refl eq_refl))).
Defined.

(** ** The component [CryptoTracker] *)

Section TrackerFacts.
Variable toLocaleDateString : Z -> Chart.DateTimeFormatOptions -> string.

Lemma Tracker_run_invariant (P : Tracker.World -> Prop) :
  (forall w e, P w -> P (Tracker.step toLocaleDateString w e)) ->
  forall trace w, P w -> P (Tracker.run toLocaleDateString w trace).
Proof.
  intros Hstep trace. induction trace as [| e trace IH]; intros w Hw; [exact Hw |].
  cbn [Tracker.run fold_left]. apply IH. now apply Hstep.
Qed.

(** X15: in [CryptoTracker] no event selects an asset: along every sequence
    of events [selectedCrypto] stays [null], no history fetch is ever
    issued, and the history and the chart stay empty. *)
Theorem Tracker_never_fetches (trace : list Tracker.Event) :
  Tracker.selectedCrypto (Tracker.state (Tracker.run toLocaleDateString Tracker.mounted trace))
    = None /\
  Tracker.historyFetches (Tracker.run toLocaleDateString Tracker.mounted trace) = [] /\
  Tracker.issued (Tracker.run toLocaleDateString Tracker.mounted trace) = 0%nat /\
  Tracker.historicalData (Tracker.state (Tracker.run toLocaleDateString Tracker.mounted trace))
    = [] /\
  Tracker.chartData (Tracker.state (Tracker.run toLocaleDateString Tracker.mounted trace))
    = None /\
  Tracker.loadingHistory (Tracker.state (Tracker.run toLocaleDateString Tracker.mounted trace))
    = false.
Proof.
  apply (Tracker_run_invariant
           (fun w =>
              Tracker.selectedCrypto (Tracker.state w) = None /\
              Tracker.historyFetches w = [] /\
              Tracker.issued w = 0%nat /\
              Tracker.historicalData (Tracker.state w) = [] /\
              Tracker.chartData (Tracker.state w) = None /\
              Tracker.loadingHistory (Tracker.state w) = false)).
  - intros w e (Hsel & Hpend & Hiss & Hhist & Hchart & Hload).
    destruct e as [[range |] | | ticket r]; cbn [Tracker.step].
    + rewrite Hsel. cbn. now repeat split.
    + now repeat split.
    + cbn. now repeat split.
    + rewrite Hpend. cbn. now repeat split.
  - now repeat split.
Qed.

(** X16: when a history fetch of [CryptoTracker] is fulfilled, the history
    is the response and the chart is a series with one label and one value
    per point, formatted for the range the fetch was called with; for a
    non-empty response it is the value [chartData] of [PotentialList] has
    for the same points and range, and for an empty response it is an empty
    series, where [chartData] of [PotentialList] is [null]. *)
Theorem Tracker_chart_follows_response
  (range : TimeRange) (points : list HistoricalData) (s : Tracker.State) :
  let s' := Tracker.fetchHistoricalData_settle toLocaleDateString range
              (HistoryFulfilled points) s in
  Tracker.historicalData s' = points /\
  Tracker.loadingHistory s' = false /\
  (exists chart dataset,
      Tracker.chartData s' = Some chart /\
      Chart.datasets chart = [dataset] /\
      Chart.labels chart
        = map (fun item => toLocaleDateString (History.time item) (Chart.labelOptions range))
              points /\
      Chart.data dataset = map (fun item => parseFloat (History.priceUsd item)) points /\
      List.length (Chart.labels chart) = List.length points /\
      List.length (Chart.data dataset) = List.length points) /\
  (points <> [] -> Chart.chartData toLocaleDateString points range = Tracker.chartData s') /\
  (points = [] ->
   Chart.chartData toLocaleDateString points range = None /\ Tracker.chartData s' <> None).
Proof.
  cbn zeta. split; [reflexivity | split; [reflexivity | split; [| split]]].
  - eexists. eexists. split; [reflexivity |]. cbn [Tracker.series Chart.datasets Chart.labels].
    split; [reflexivity | split; [reflexivity |]].
    cbn [Chart.data]. rewrite !length_map. repeat split.
  - intros Hne. destruct points as [| p ps]; [contradiction | reflexivity].
  - intros ->. split; [reflexivity | discriminate].
Qed.
End TrackerFacts.

(** X16 at a history of two points and at the empty history. *)
Lemma Tracker_chart_witness :
  Chart.chartData plainLabel samplePoints R24H
    = Tracker.chartData
        (Tracker.fetchHistoricalData_settle plainLabel R24H (HistoryFulfilled samplePoints)
           Tracker.initialState) /\
  Chart.chartData plainLabel [] R24H = None /\
  Tracker.chartData
    (Tracker.fetchHistoricalData_settle plainLabel R24H (HistoryFulfilled [])
       Tracker.initialState) <> None.
Proof.
  split.
  - apply (Tracker_chart_follows_response plainLabel R24H samplePoints Tracker.initialState).
    discriminate.
  - apply (Tracker_chart_follows_response plainLabel R24H [] Tracker.initialState).
    reflexivity.
Defined.

(** ** The history request *)

(** X14: for every range, when the clock does not go back between its two
    readings, the request asks for the interval of the range over a window
    that ends at the second reading, starts the days of the range (at least
    one) before the first, and so spans at least that many days. *)
Theorem history_query_window (range : TimeRange) (now1 now2 : Z) :
  (now1 <= now2)%Z ->
  historyQuery range now1 now2
    = (fst (TIME_RANGES range), (now1 - snd (TIME_RANGES range) * 86400000)%Z, now2) /\
  (1 <= snd (TIME_RANGES range) <= 2000)%Z /\
  (snd (fst (historyQuery range now1 now2)) < snd (historyQuery range now1 now2))%Z /\
  (snd (historyQuery range now1 now2) - snd (fst (historyQuery range now1 now2))
   >= snd (TIME_RANGES range) * 86400000)%Z.
Proof.
  intros H. destruct range; cbn; repeat split; try discriminate; try f_equal; try lia.
Qed.

(** X14 for the range ALL at the clock reading 1700000000000. *)
Lemma history_query_witness :
  historyQuery RALL 1700000000000 1700000000000
  = ("d1"%string, 1527200000000%Z, 1700000000000%Z).
Proof.
  rewrite (proj1 (history_query_window RALL 1700000000000 1700000000000 (Z.le_refl _))).
  reflexivity.
Defined.

(** ** [formatMarketCap] *)

(** X17: [formatMarketCap] divides by 1e9 and appends B from 1e9 on, divides
    by 1e6 and appends M from 1e6 up to 1e9, and otherwise formats the
    number itself, NaN included; the number it hands to [toFixed] with a unit
    is at least 1, and below 1000 for the unit M. *)
Theorem formatMarketCap_units (toFixed : number -> nat -> string) (x : R) :
  ((1000000000 <= x)%R ->
   exists v : R,
     Formatters.formatMarketCap toFixed (Fin x) = ("$" ++ toFixed (Fin v) 2%nat ++ "B")%string /\
     (1 <= v)%R /\ (v * 1000000000 = x)%R) /\
  ((1000000 <= x < 1000000000)%R ->
   exists v : R,
     Formatters.formatMarketCap toFixed (Fin x) = ("$" ++ toFixed (Fin v) 2%nat ++ "M")%string /\
     (1 <= v < 1000)%R /\ (v * 1000000 = x)%R) /\
  ((x < 1000000)%R ->
   Formatters.formatMarketCap toFixed (Fin x) = ("$" ++ toFixed (Fin x) 2%nat)%string) /\
  Formatters.formatMarketCap toFixed NaN = ("$" ++ toFixed NaN 2%nat)%string.
Proof.
  unfold Formatters.formatMarketCap, of_Z.
  split; [| split; [| split]].
  - intros H. rewrite ge_Fin, Rleb_true by lra. rewrite div_Fin by lra.
    eexists. split; [reflexivity |]. split; [| field].
    apply Rmult_le_reg_r with 1000000000%R; [lra |].
    unfold Rdiv. rewrite Rmult_assoc, Rinv_l by lra. lra.
  - intros H. rewrite !ge_Fin. rewrite (@Rleb_false 1000000000 x) by lra.
    rewrite Rleb_true by lra. rewrite div_Fin by lra.
    eexists. split; [reflexivity |]. split; [| field].
    split.
    + apply Rmult_le_reg_r with 1000000%R; [lra |].
      unfold Rdiv. rewrite Rmult_assoc, Rinv_l by lra. lra.
    + apply Rmult_lt_reg_r with 1000000%R; [lra |].
      unfold Rdiv. rewrite Rmult_assoc, Rinv_l by lra. lra.
  - intros H. rewrite !ge_Fin.
    rewrite (@Rleb_false 1000000000 x) by lra. now rewrite (@Rleb_false 1000000 x) by lra.
  - reflexivity.
Qed.

(** X17 at a market capitalisation of 250 millions. *)
Lemma formatMarketCap_witness :
  exists v : R,
    Formatters.formatMarketCap (fun _ _ => "0.00"%string) (Fin 250000000)
      = ("$" ++ "0.00" ++ "M")%string /\
    (1 <= v < 1000)%R /\ (v * 1000000 = 250000000)%R.
Proof.
  destruct (proj1 (proj2 (formatMarketCap_units (fun _ _ => "0.00"%string) 250000000)))
    as (v & H1 & H2 & H3); [lra |].
  exists v. repeat split; try assumption; lra.
Defined.

(** ** What the dialog shows *)

Lemma chartData_None (fmt : Z -> Chart.DateTimeFormatOptions -> string)
  (points : list HistoricalData) (range : TimeRange) :
  Chart.chartData fmt points range = None <-> points = [].
Proof.
  destruct points as [| p ps]; cbn; split; intros H; try reflexivity; discriminate.
Qed.

(** X18: the dialog shows the text for a failed load exactly when no fetch
    is loading and the history is empty, whether or not a fetch failed: a
    fulfilled fetch that returns no point leads to that text, and a rejected
    fetch leaves the chart of the series held before, drawn with the label
    options of the range now selected. *)
Theorem failure_text_iff_empty_history
  (toLocaleDateString : Z -> Chart.DateTimeFormatOptions -> string) (s : State) :
  (dialogBody toLocaleDateString s = LoadFailureText <->
   loadingHistory s = false /\ historicalData s = []) /\
  dialogBody toLocaleDateString (fetchHistoricalData_settle (HistoryFulfilled []) s)
    = LoadFailureText /\
  (historicalData s <> [] ->
   exists chart,
     dialogBody toLocaleDateString (fetchHistoricalData_settle HistoryRejected s)
       = LineChart chart /\
     Chart.chartData toLocaleDateString (historicalData s) (selectedTimeRange s) = Some chart).
Proof.
  split; [| split].
  - unfold dialogBody. destruct (loadingHistory s).
    + split; [discriminate | intros [H _]; discriminate].
    + destruct (Chart.chartData toLocaleDateString (historicalData s) (selectedTimeRange s))
        as [chart |] eqn:E.
      * split; [discriminate |]. intros [_ H].
        apply (chartData_None toLocaleDateString _ (selectedTimeRange s)) in H. congruence.
      * apply chartData_None in E. now split.
  - reflexivity.
  - intros Hne. unfold dialogBody. cbn.
    destruct (Chart.chartData toLocaleDateString (historicalData s) (selectedTimeRange s))
      as [chart |] eqn:E.
    + now exists chart.
    + apply chartData_None in E. contradiction.
Qed.

(** X18 after a rejected fetch for the range ALL, with the 7 day series of
    [assetA] held. *)
Lemma failure_text_witness :
  exists chart,
    dialogBody plainLabel
      (fetchHistoricalData_settle HistoryRejected
         (setSelectedTimeRange RALL (setHistoricalData pointsA7D initialState)))
    = LineChart chart /\
    Chart.labels chart = ["day"%string].
Proof.
  destruct (proj2 (proj2 (failure_text_iff_empty_history plainLabel
              (setSelectedTimeRange RALL (setHistoricalData pointsA7D initialState)))))
    as (chart & H1 & H2); [discriminate |].
  exists chart. split; [exact H1 |].
  cbn in H2. injection H2 as <-. reflexivity.
Defined.

(** ** What a card shows *)

Lemma not_ge_lt (a b : number) : isNaN a = false -> isNaN b = false ->
  ge a b = false <-> lt a b = true.
Proof.
  intros Ha Hb. destruct a, b; try discriminate; split; intros H; number_cases.
Qed.

(** X19: along every sequence of events from the mounting, for every listed
    record the colour of the change is the error colour exactly when the
    parsed change is negative (the test never meets NaN), and the value of
    the progress bar is a number: the score itself, or 0 when the score is
    NaN. *)
Theorem listed_cards_show_numbers (trace : list Event) (crypto : CryptoData) :
  In crypto (data (state (run mounted trace))) ->
  (changeColor crypto = ErrorMain <->
   lt (parseFloat (changePercent24Hr crypto)) (of_Z 0) = true) /\
  isNaN (progressValue crypto) = false /\
  (isNaN (calculatePotentialScore crypto) = false ->
   progressValue crypto = calculatePotentialScore crypto) /\
  (isNaN (calculatePotentialScore crypto) = true -> progressValue crypto = of_Z 0).
Proof.
  intros Hin.
  assert (Hinv : listInvariant (state (run mounted trace))).
  { apply (run_invariant (fun w => listInvariant (state w))).
    - exact step_listInvariant.
    - split; [apply Nat.le_0_l | split; [constructor | split]].
      + intros coin [].
      + cbn. discriminate. }
  destruct Hinv as (_ & _ & Hrec & _).
  destruct (Hrec crypto Hin) as [Hvalid Hscore].
  apply isValid_spec in Hvalid. destruct Hvalid as (_ & _ & Hchange & _).
  split; [| split; [| split]].
  - unfold changeColor.
    rewrite <- (not_ge_lt _ (of_Z 0) Hchange eq_refl).
    destruct (ge (parseFloat (changePercent24Hr crypto)) (of_Z 0));
      split; intros H; try reflexivity; discriminate.
  - apply scoreOrZero_not_NaN.
  - intros Hnum. unfold progressValue, scoreOrZero. rewrite Hscore.
    now destruct (calculatePotentialScore crypto).
  - intros Hnan. unfold progressValue, scoreOrZero. rewrite Hscore.
    now rewrite (isNaN_true _ Hnan).
Qed.

(** X19 once the first snapshot response has listed the two sample
    assets. *)
Lemma listed_cards_witness :
  isNaN (progressValue (withScore assetA)) = false.
Proof.
  refine (proj1 (proj2 (listed_cards_show_numbers
            [SnapshotSettled 0 (Fulfilled (JArray [assetA; assetB]))] (withScore assetA) _))).
  change (run mounted [SnapshotSettled 0 (Fulfilled (JArray [assetA; assetB]))])
    with (step mounted (SnapshotSettled 0 (Fulfilled (JArray [assetA; assetB])))).
  rewrite first_fetch_lists_both. now left.
Defined.
